(** * MCPGoogleTasks: the terminal formatter and the tool dispatcher

    A shallow embedding of
    - [src/utils.ts] ([formatForTerminal], [formatJsonForTerminal]), in its
      two revisions: the one that reverses by UTF-16 code unit and the one
      that reverses by grapheme cluster when [Intl.Segmenter] exists;
    - [src/mcp/tool-definitions.ts] (the tool catalog and the two name sets);
    - [src/index.ts] (the stdio server) and [src/http-server.ts] (the HTTP
      server): [initializeClient], the tool listing and the tool-call handler;
    - [src/auth.ts] ([getAuthClient], [getAuthUrl]) as far as the servers
      call it.

    JavaScript strings are sequences of UTF-16 code units; objects used as
    maps are finite maps from property names to values; the handlers run in a
    state-and-exception monad over the server's one mutable field
    ([tasksClient]) and the log of calls made to the collaborators. *)

From stdpp Require Import gmap strings list fin_maps.
From Stdlib Require Import ZArith Lia.

#[local] Open Scope string_scope.
#[local] Open Scope list_scope.
#[local] Open Scope Z_scope.

(** ** JavaScript strings as UTF-16 code units *)

(** A code unit is an integer in [0, 0xFFFF]; a string is a list of them. *)
Definition jsString : Type := list Z.

(** [string | null | undefined], the parameter type of [formatForTerminal]. *)
Inductive Text : Type :=
| TNull
| TUndefined
| TString (s : jsString).

Definition inRange (lo hi u : Z) : bool := (lo <=? u) && (u <=? hi).

(** The character class of the regular expression: U+0590-U+05FF,
    U+0600-U+06FF, U+0750-U+077F, U+FB50-U+FDFF and U+FE70-U+FEFF.  The
    expression has no [u] flag, so it is matched against code units. *)
Definition isRTL (u : Z) : bool :=
  inRange 0x0590 0x05FF u || inRange 0x0600 0x06FF u ||
  inRange 0x0750 0x077F u || inRange 0xFB50 0xFDFF u ||
  inRange 0xFE70 0xFEFF u.

(** [/[...]/.test(text)]: some code unit of [text] is in the class. *)
Definition hasRTL (text : jsString) : bool := existsb isRTL text.

(** [!text] on a string: only the empty string is falsy. *)
Definition isEmpty (s : jsString) : bool :=
  match s with [] => true | _ => false end.

(** *** Code points, for statements about them *)

Definition isHighSurrogate (u : Z) : bool := inRange 0xD800 0xDBFF u.
Definition isLowSurrogate (u : Z) : bool := inRange 0xDC00 0xDFFF u.

Definition surrogatePair (hi lo : Z) : Z :=
  0x10000 + (hi - 0xD800) * 0x400 + (lo - 0xDC00).

(** The code points of a string, as [String.prototype.codePointAt] and the
    string iterator read them: a high surrogate followed by a low one is one
    code point, any other unit stands for itself. *)
Fixpoint codePoints (s : jsString) : list Z :=
  match s with
  | [] => []
  | u :: rest =>
      match rest with
      | lo :: rest' =>
          if isHighSurrogate u && isLowSurrogate lo
          then surrogatePair u lo :: codePoints rest'
          else u :: codePoints rest
      | [] => [u]
      end
  end.

(** [c] is a contiguous substring of [t]. *)
Definition substringOf (c t : jsString) : Prop :=
  exists pre post, t = pre ++ c ++ post.

(** ** [src/utils.ts], first revision: reversal by code unit *)

Module Utils.

(** [[
  if (!text) return '';
  const hasRTL = /[...]/.test(text);
  if (hasRTL) { return text.split('').reverse().join(''); }
  return text;
]] *)
Definition formatForTerminal (text : Text) : jsString :=
  match text with
  | TNull | TUndefined => []
  | TString s =>
      if isEmpty s then []
      else if hasRTL s then rev s
      else s
  end.

End Utils.

(** ** [src/utils.ts], second revision: reversal by grapheme cluster *)

Module UtilsGrapheme.

(** [Intl.Segmenter] belongs to the JavaScript runtime.  [segmenter] is
    [None] when [typeof Intl !== 'undefined' && Intl.Segmenter] is falsy, and
    otherwise the function that
    [Array.from(segmenter.segment(text), segment => segment.segment)]
    computes: the list of grapheme clusters of [text]. *)
Definition Segmenter : Type := option (jsString -> list jsString).

(** [[
  if (!text) return '';
  const hasRTL = /[...]/.test(text);
  if (hasRTL) {
    if (typeof Intl !== 'undefined' && Intl.Segmenter) {
      ... return graphemes.reverse().join('');
    }
    return text.split('').reverse().join('');
  }
  return text;
]] *)
Definition formatForTerminal (segmenter : Segmenter) (text : Text) : jsString :=
  match text with
  | TNull | TUndefined => []
  | TString s =>
      if isEmpty s then []
      else if hasRTL s then
        match segmenter with
        | Some segment => concat (rev (segment s))
        | None => rev s
        end
      else s
  end.

End UtilsGrapheme.

(** A segmenter for concrete runs: it cuts at code point boundaries, so a
    surrogate pair is one cluster. *)
Fixpoint segmentCodePoints (s : jsString) : list jsString :=
  match s with
  | [] => []
  | u :: rest =>
      match rest with
      | lo :: rest' =>
          if isHighSurrogate u && isLowSurrogate lo
          then [u; lo] :: segmentCodePoints rest'
          else [u] :: segmentCodePoints rest
      | [] => [[u]]
      end
  end.

(** ** JSON-like values *)

(** The values [formatJsonForTerminal] and the tool arguments range over.  An
    object is the finite map of its own enumerable string-keyed properties
    (what [Object.entries] lists and [JSON.stringify] prints); numbers are
    carried as integers, the code here only tests them for being falsy.  The
    prototype of an object is not part of the value: nothing in
    [formatJsonForTerminal] reads it, and [prototypeOfFormatted] below says
    what the function leaves as the prototype of the object it returns. *)
#[warnings="-register-all"]
Inductive JsValue : Type :=
| JNull
| JUndefined
| JBool (b : bool)
| JNum (n : Z)
| JStr (s : jsString)
| JArr (items : list JsValue)
| JObj (fields : gmap string JsValue).

(** [!data] *)
Definition falsy (data : JsValue) : bool :=
  match data with
  | JNull | JUndefined => true
  | JBool b => negb b
  | JNum n => n =? 0
  | JStr s => isEmpty s
  | JArr _ | JObj _ => false
  end.

(** [typeof value === 'object']: [null], arrays and objects. *)
Definition typeofObject (value : JsValue) : bool :=
  match value with
  | JNull | JArr _ | JObj _ => true
  | _ => false
  end.

(** Neither an array nor an object. *)
Definition isScalar (value : JsValue) : bool :=
  match value with
  | JArr _ | JObj _ => false
  | _ => true
  end.

(** The number of nodes of a value: the measure for induction on values. *)
Fixpoint JsValue_size (value : JsValue) : nat :=
  match value with
  | JArr items => S (foldr (fun x acc => JsValue_size x + acc)%nat 0%nat items)
  | JObj fields =>
      S (map_fold (fun _ x acc => JsValue_size x + acc)%nat 0%nat fields)
  | _ => 1
  end.

(** The default value of the parameter [rtlFields]. *)
Definition rtlFields_default : list string := ["title"; "notes"].

(** What an object inherits from: [Object.prototype], as every [{}] does
    when it is created, nothing, or another value. *)
Inductive Prototype : Type :=
| ObjectPrototype
| NullPrototype
| ValuePrototype (value : JsValue).

(** The one key that [Object.prototype] defines as an accessor. *)
Definition protoKey : string := "__proto__".

Section FormatJson.

(** The [formatForTerminal] of the revision at hand. *)
Variable formatForTerminal : Text -> jsString.

(** [[
  if (!data) return data;
  if (Array.isArray(data)) return data.map(item => formatJsonForTerminal(item, rtlFields));
  if (typeof data === 'object') {
    const formatted = {};
    for (const [key, value] of Object.entries(data)) {
      if (rtlFields.includes(key) && typeof value === 'string')
        formatted[key] = formatForTerminal(value);
      else if (typeof value === 'object')
        formatted[key] = formatJsonForTerminal(value, rtlFields);
      else formatted[key] = value;
    }
    return formatted;
  }
  return data;
]]
    The loop assigns [formatted[key]] once for every entry of [data].  On
    the plain object [formatted] an assignment creates an own property, but
    for the key [__proto__]: that one is an accessor inherited from
    [Object.prototype], so the assignment runs its setter and creates no own
    property (an object [data] can own such a key, [JSON.parse] makes one).
    Hence [map_imap] with a function that answers [None] for that key and
    [Some] for every other. *)
Fixpoint formatJsonForTerminal (rtlFields : list string) (data : JsValue)
  {struct data} : JsValue :=
  if falsy data then data
  else
    match data with
    | JArr items => JArr (map (formatJsonForTerminal rtlFields) items)
    | JObj fields =>
        JObj (map_imap (fun key value =>
          if String.eqb key protoKey then None
          else
            Some match value with
                 | JStr s =>
                     if bool_decide (key ∈ rtlFields)
                     then JStr (formatForTerminal (TString s))
                     else value
                 | JNull | JArr _ | JObj _ =>
                     formatJsonForTerminal rtlFields value
                 | JUndefined | JBool _ | JNum _ => value
                 end) fields)
    | _ => data
    end.

(** What the loop body assigns to [formatted[key]] for the entry
    [(key, value)]. *)
Definition formatEntry (rtlFields : list string) (key : string)
  (value : JsValue) : JsValue :=
  match value with
  | JStr s =>
      if bool_decide (key ∈ rtlFields)
      then JStr (formatForTerminal (TString s))
      else value
  | _ =>
      if typeofObject value then formatJsonForTerminal rtlFields value
      else value
  end.

(** The prototype of the object returned for [data = fields].  The setter of
    [__proto__] makes the assigned value the prototype when it is an object
    (an array is one) or [null], and does nothing for any other value; no
    other assignment of the loop touches the prototype. *)
Definition prototypeOfFormatted (rtlFields : list string)
  (fields : gmap string JsValue) : Prototype :=
  match fields !! protoKey with
  | Some value =>
      match formatEntry rtlFields protoKey value with
      | JNull => NullPrototype
      | (JArr _ | JObj _) as assigned => ValuePrototype assigned
      | _ => ObjectPrototype
      end
  | None => ObjectPrototype
  end.

End FormatJson.

(** ** [src/mcp/tool-definitions.ts] *)

(** One entry of [inputSchema.properties]. *)
Record PropertySchema : Type := mkProperty {
  prop_type : string;
  prop_description : string;
  prop_enum : option (list string);
  prop_default : option JsValue
}.

Record InputSchema : Type := mkInputSchema {
  type : string;
  properties : list (string * PropertySchema);
  required : option (list string)
}.

(** [interface ToolDefinition] *)
Record ToolDefinition : Type := mkTool {
  name : string;
  description : string;
  inputSchema : InputSchema
}.

Definition stringProperty (d : string) : PropertySchema :=
  mkProperty "string" d None None.

(** [TOOL_DEFINITIONS], in the order of the source. *)
Definition TOOL_DEFINITIONS : list ToolDefinition :=
  [ mkTool "list_task_lists" "List all Google Tasks task lists"
      (mkInputSchema "object" [] None);
    mkTool "create_task_list" "Create a new task list"
      (mkInputSchema "object"
         [("title", stringProperty "Title of the new task list")]
         (Some ["title"]));
    mkTool "list_tasks" "List tasks in a specific task list"
      (mkInputSchema "object"
         [("taskListId", stringProperty "ID of the task list");
          ("showCompleted",
           mkProperty "boolean" "Include completed tasks" None
             (Some (JBool false)))]
         (Some ["taskListId"]));
    mkTool "create_task" "Create a new task in a task list"
      (mkInputSchema "object"
         [("taskListId", stringProperty "ID of the task list");
          ("title", stringProperty "Title of the task");
          ("notes", stringProperty "Notes/description for the task");
          ("due", stringProperty
             "Due date in RFC 3339 format (e.g., 2024-12-31T23:59:59Z)")]
         (Some ["taskListId"; "title"]));
    mkTool "update_task" "Update an existing task"
      (mkInputSchema "object"
         [("taskListId", stringProperty "ID of the task list");
          ("taskId", stringProperty "ID of the task to update");
          ("title", stringProperty "New title for the task");
          ("notes", stringProperty "New notes for the task");
          ("status",
           mkProperty "string" "Task status"
             (Some ["needsAction"; "completed"]) None);
          ("due", stringProperty "Due date in RFC 3339 format")]
         (Some ["taskListId"; "taskId"]));
    mkTool "delete_task" "Delete a task"
      (mkInputSchema "object"
         [("taskListId", stringProperty "ID of the task list");
          ("taskId", stringProperty "ID of the task to delete")]
         (Some ["taskListId"; "taskId"]));
    mkTool "get_auth_url"
      "Get OAuth2 authorization URL for Google Tasks authentication"
      (mkInputSchema "object" [] None) ].

(** [READ_ONLY_TOOLS = new Set([...])] *)
Definition READ_ONLY_TOOLS : gset string :=
  {[ "list_task_lists"; "list_tasks"; "get_auth_url" ]}.

(** [MUTATING_TOOLS = new Set([...])] *)
Definition MUTATING_TOOLS : gset string :=
  {[ "create_task_list"; "create_task"; "update_task"; "delete_task" ]}.

(** [set.has(x)] *)
Definition has (set : gset string) (x : string) : bool :=
  bool_decide (x ∈ set).

(** ** Errors, collaborators and the server state *)

(** The members of [ErrorCode] the servers use. *)
Inductive ErrorCode : Type := InvalidRequest | MethodNotFound | InternalError.

(** [new McpError(code, message)], by its two arguments. *)
Record McpError : Type := mkMcpError {
  code : ErrorCode;
  message : string
}.

(** A thrown value, as the [catch] block tells them apart. *)
Inductive Thrown : Type :=
| ThrownMcpError (e : McpError)      (* error instanceof McpError *)
| ThrownError (msg : string)         (* error instanceof Error, with error.message *)
| ThrownValue (asString : string).   (* anything else, with String(error) *)

(** The content of [token.json]. *)
Definition Token : Type := nat.

(** The [OAuth2Client] that [getAuthClient] returns, with the credentials it
    was given. *)
Record OAuth2Client : Type := mkOAuth2Client { credentials : Token }.

(** A [GoogleTasksClient] object: [client_id] is the object's identity (how
    many clients were constructed before it). *)
Record GoogleTasksClient : Type := mkGoogleTasksClient {
  client_id : nat;
  client_auth : OAuth2Client
}.

(** A method call on a [GoogleTasksClient], with the arguments the handler
    passes. *)
Inductive ApiCall : Type :=
| listTaskLists
| listTasks (taskListId showCompleted : JsValue)
| createTaskList (title : JsValue)
| createTask (taskListId title notes due : JsValue)
| updateTask (taskListId taskId title notes status due : JsValue)
| deleteTask (taskListId taskId : JsValue).

(** What the log records: each invocation of [initializeClient], and each
    call that leaves the server class. *)
Inductive Event : Type :=
| EvInitializeClient
| EvGetAuthUrl
| EvGetAuthClient
| EvNewGoogleTasksClient (authClient : OAuth2Client)
| EvApi (client : GoogleTasksClient) (call : ApiCall).

(** What lies outside the servers.  An answer may depend on everything that
    happened before the call. *)
Record Collaborators : Type := mkCollaborators {
  (* oauth2Client.generateAuthUrl(...) *)
  generateAuthUrl : string;
  (* GoogleAuthManager.loadToken: None when reading or parsing the file throws *)
  loadToken : list Event -> option Token;
  (* a method of GoogleTasksClient: the value it resolves to, or what it throws *)
  tasksApi : list Event -> GoogleTasksClient -> ApiCall -> Thrown + JsValue;
  (* JSON.stringify(value, null, 2) *)
  JSON_stringify : JsValue -> string
}.

(** The mutable field of the server object, and the log. *)
Record ServerState : Type := mkServerState {
  tasksClient : option GoogleTasksClient;
  log : list Event
}.

(** The server as constructed: [tasksClient = null], nothing called yet. *)
Definition freshServer : ServerState := mkServerState None [].

(** *** The monad of the handlers *)

Definition Async (A : Type) : Type :=
  ServerState -> (Thrown + A) * ServerState.

#[global] Instance Async_ret : MRet Async :=
  fun A a st => (inr a, st).

#[global] Instance Async_bind : MBind Async :=
  fun A B k m st =>
    match m st with
    | (inl e, st') => (inl e, st')
    | (inr a, st') => k a st'
    end.

Definition throw {A : Type} (e : Thrown) : Async A :=
  fun st => (inl e, st).

(** [try { body } catch (error) { handler error }] *)
Definition tryCatch {A : Type} (body : Async A) (handler : Thrown -> Async A)
  : Async A :=
  fun st =>
    match body st with
    | (inl e, st') => handler e st'
    | (inr a, st') => (inr a, st')
    end.

Definition emit (e : Event) : Async unit :=
  fun st => (inr tt, mkServerState (tasksClient st) (log st ++ [e])).

(** A call to a collaborator: logged, and answered from the history. *)
Definition callOut {A : Type} (e : Event) (answer : list Event -> Thrown + A)
  : Async A :=
  fun st => (answer (log st), mkServerState (tasksClient st) (log st ++ [e])).

Definition readTasksClient : Async (option GoogleTasksClient) :=
  fun st => (inr (tasksClient st), st).

Definition writeTasksClient (c : GoogleTasksClient) : Async unit :=
  fun st => (inr tt, mkServerState (Some c) (log st)).

Definition isNewClient (e : Event) : bool :=
  match e with EvNewGoogleTasksClient _ => true | _ => false end.

Definition isGetAuthClient (e : Event) : bool :=
  match e with EvGetAuthClient => true | _ => false end.

Definition isInitializeClient (e : Event) : bool :=
  match e with EvInitializeClient => true | _ => false end.

Definition isApi (e : Event) : bool :=
  match e with EvApi _ _ => true | _ => false end.

(** How many events of a kind a log holds. *)
Definition count (p : Event -> bool) (l : list Event) : nat :=
  length (List.filter p l).

Section Server.

Variable W : Collaborators.

(** [GoogleAuthManager.getAuthClient] ([src/auth.ts]):
    [[
  try { const token = await this.loadToken();
        this.oauth2Client.setCredentials(token); return this.oauth2Client; }
  catch (error) { throw new Error('No valid token found. ...'); }
]] *)
Definition getAuthClient : Async OAuth2Client :=
  callOut EvGetAuthClient (fun history =>
    match loadToken W history with
    | Some token => inr (mkOAuth2Client token)
    | None =>
        inl (ThrownError
          "No valid token found. Please authenticate first using getAuthUrl() and authenticate().")
    end).

(** [GoogleAuthManager.getAuthUrl] *)
Definition getAuthUrl : Async string :=
  callOut EvGetAuthUrl (fun _ => inr (generateAuthUrl W)).

(** [new GoogleTasksClient(authClient)] *)
Definition newGoogleTasksClient (authClient : OAuth2Client)
  : Async GoogleTasksClient :=
  callOut (EvNewGoogleTasksClient authClient) (fun history =>
    inr (mkGoogleTasksClient (count isNewClient history) authClient)).

(** [client.method(...)] *)
Definition api (client : GoogleTasksClient) (call : ApiCall) : Async JsValue :=
  callOut (EvApi client call) (fun history => tasksApi W history client call).

(** [initializeClient], the same text in both servers:
    [[
  if (!this.tasksClient) {
    const authClient = await this.authManager.getAuthClient();
    this.tasksClient = new GoogleTasksClient(authClient);
  }
  return this.tasksClient;
]] *)
Definition initializeClient : Async GoogleTasksClient :=
  _ ← emit EvInitializeClient;
  cached ← readTasksClient;
  match cached with
  | Some client => mret client
  | None =>
      authClient ← getAuthClient;
      client ← newGoogleTasksClient authClient;
      _ ← writeTasksClient client;
      mret client
  end.

End Server.

(** ** Requests and results *)

(** [request.params] of a [CallToolRequest]. *)
Record CallToolRequest : Type := mkRequest {
  params_name : string;
  params_arguments : option (gmap string JsValue)
}.

Record TextContent : Type := mkTextContent {
  content_type : string;
  text : string
}.

Record CallToolResult : Type := mkResult { content : list TextContent }.

(** [{ content: [{ type: 'text', text }] }] *)
Definition textResult (t : string) : CallToolResult :=
  mkResult [mkTextContent "text" t].

(** The default of [arguments: args = {}]. *)
Definition argsOf (request : CallToolRequest) : gmap string JsValue :=
  default ∅ (params_arguments request).

(** [args.key]: [undefined] when the property is absent. *)
Definition prop (args : gmap string JsValue) (key : string) : JsValue :=
  default JUndefined (args !! key).

Definition newline : string := String (Ascii.ascii_of_nat 10) "".

Definition authUrlText (authUrl : string) : string :=
  "Please visit this URL to authorize the application:"
  +:+ newline +:+ newline +:+ authUrl.

(** The [catch] block of both handlers:
    [[
  if (error instanceof McpError) throw error;
  throw new McpError(ErrorCode.InternalError,
    `Error executing tool: ${error instanceof Error ? error.message : String(error)}`);
]] *)
Definition rethrow (error : Thrown) : Thrown :=
  match error with
  | ThrownMcpError e => ThrownMcpError e
  | ThrownError msg =>
      ThrownMcpError (mkMcpError InternalError ("Error executing tool: " +:+ msg))
  | ThrownValue s =>
      ThrownMcpError (mkMcpError InternalError ("Error executing tool: " +:+ s))
  end.

(** ** [src/index.ts]: the stdio server *)

Module Stdio.

(** The [ListToolsRequestSchema] handler of [src/index.ts]: the catalog is
    written out in the handler. *)
Definition listTools : list ToolDefinition :=
  [ mkTool "list_task_lists" "List all Google Tasks task lists"
      (mkInputSchema "object" [] None);
    mkTool "create_task_list" "Create a new task list"
      (mkInputSchema "object"
         [("title", stringProperty "Title of the new task list")]
         (Some ["title"]));
    mkTool "list_tasks" "List tasks in a specific task list"
      (mkInputSchema "object"
         [("taskListId", stringProperty "ID of the task list");
          ("showCompleted",
           mkProperty "boolean" "Include completed tasks" None
             (Some (JBool false)))]
         (Some ["taskListId"]));
    mkTool "create_task" "Create a new task in a task list"
      (mkInputSchema "object"
         [("taskListId", stringProperty "ID of the task list");
          ("title", stringProperty "Title of the task");
          ("notes", stringProperty "Notes/description for the task");
          ("due", stringProperty
             "Due date in RFC 3339 format (e.g., 2024-12-31T23:59:59Z)")]
         (Some ["taskListId"; "title"]));
    mkTool "update_task" "Update an existing task"
      (mkInputSchema "object"
         [("taskListId", stringProperty "ID of the task list");
          ("taskId", stringProperty "ID of the task to update");
          ("title", stringProperty "New title for the task");
          ("notes", stringProperty "New notes for the task");
          ("status",
           mkProperty "string" "Task status"
             (Some ["needsAction"; "completed"]) None);
          ("due", stringProperty "Due date in RFC 3339 format")]
         (Some ["taskListId"; "taskId"]));
    mkTool "delete_task" "Delete a task"
      (mkInputSchema "object"
         [("taskListId", stringProperty "ID of the task list");
          ("taskId", stringProperty "ID of the task to delete")]
         (Some ["taskListId"; "taskId"]));
    mkTool "get_auth_url"
      "Get OAuth2 authorization URL for Google Tasks authentication"
      (mkInputSchema "object" [] None) ].

(** The later revision of the file serves the shared catalog:
    [tools: TOOL_DEFINITIONS]. *)
Definition listTools_shared : list ToolDefinition := TOOL_DEFINITIONS.

Section Handler.

Variable W : Collaborators.

(** The [switch (name)] of the handler, in the order of its cases. *)
Definition dispatch (client : GoogleTasksClient) (name : string)
  (args : gmap string JsValue) : Async CallToolResult :=
  if String.eqb name "list_task_lists" then
    taskLists ← api W client listTaskLists;
    mret (textResult (JSON_stringify W taskLists))
  else if String.eqb name "create_task_list" then
    taskList ← api W client (createTaskList (prop args "title"));
    mret (textResult (JSON_stringify W taskList))
  else if String.eqb name "list_tasks" then
    tasks ← api W client
      (listTasks (prop args "taskListId") (prop args "showCompleted"));
    mret (textResult (JSON_stringify W tasks))
  else if String.eqb name "create_task" then
    task ← api W client
      (createTask (prop args "taskListId") (prop args "title")
         (prop args "notes") (prop args "due"));
    mret (textResult (JSON_stringify W task))
  else if String.eqb name "update_task" then
    task ← api W client
      (updateTask (prop args "taskListId") (prop args "taskId")
         (prop args "title") (prop args "notes") (prop args "status")
         (prop args "due"));
    mret (textResult (JSON_stringify W task))
  else if String.eqb name "delete_task" then
    _ ← api W client
      (deleteTask (prop args "taskListId") (prop args "taskId"));
    mret (textResult "Task deleted successfully")
  else
    throw (ThrownMcpError
      (mkMcpError MethodNotFound ("Unknown tool: " +:+ name))).

(** The [CallToolRequestSchema] handler:
    [[
  try {
    const { name, arguments: args = {} } = request.params;
    if (name === 'get_auth_url') { ... return { content: [...] }; }
    const client = await this.initializeClient();
    switch (name) { ... default: throw new McpError(MethodNotFound, ...); }
  } catch (error) { ... }
]] *)
Definition callTool (request : CallToolRequest) : Async CallToolResult :=
  tryCatch
    (let name := params_name request in
     let args := argsOf request in
     if String.eqb name "get_auth_url" then
       authUrl ← getAuthUrl W;
       mret (textResult (authUrlText authUrl))
     else
       client ← initializeClient W;
       dispatch client name args)
    (fun error => throw (rethrow error)).

End Handler.

End Stdio.

(** ** [src/http-server.ts]: the HTTP server *)

Module Http.

Section Handler.

Variable W : Collaborators.

(** [const READ_ONLY = process.env.READ_ONLY !== 'false'], read once when
    the module is loaded. *)
Variable READ_ONLY : bool.

(** [[
  if (READ_ONLY) {
    return TOOL_DEFINITIONS.filter(tool => READ_ONLY_TOOLS.has(tool.name));
  }
  return TOOL_DEFINITIONS;
]] *)
Definition getAvailableTools : list ToolDefinition :=
  if READ_ONLY
  then List.filter (fun tool => has READ_ONLY_TOOLS (name tool)) TOOL_DEFINITIONS
  else TOOL_DEFINITIONS.

(** The [ListToolsRequestSchema] handler: [tools: this.getAvailableTools()]. *)
Definition listTools : list ToolDefinition := getAvailableTools.

(** The [switch (name)] of the handler, in the order of its cases. *)
Definition dispatch (client : GoogleTasksClient) (name : string)
  (args : gmap string JsValue) : Async CallToolResult :=
  if String.eqb name "list_task_lists" then
    taskLists ← api W client listTaskLists;
    mret (textResult (JSON_stringify W taskLists))
  else if String.eqb name "list_tasks" then
    tasks ← api W client
      (listTasks (prop args "taskListId") (prop args "showCompleted"));
    mret (textResult (JSON_stringify W tasks))
  else if String.eqb name "create_task_list" then
    taskList ← api W client (createTaskList (prop args "title"));
    mret (textResult (JSON_stringify W taskList))
  else if String.eqb name "create_task" then
    task ← api W client
      (createTask (prop args "taskListId") (prop args "title")
         (prop args "notes") (prop args "due"));
    mret (textResult (JSON_stringify W task))
  else if String.eqb name "update_task" then
    task ← api W client
      (updateTask (prop args "taskListId") (prop args "taskId")
         (prop args "title") (prop args "notes") (prop args "status")
         (prop args "due"));
    mret (textResult (JSON_stringify W task))
  else if String.eqb name "delete_task" then
    _ ← api W client
      (deleteTask (prop args "taskListId") (prop args "taskId"));
    mret (textResult "Task deleted successfully")
  else
    throw (ThrownMcpError
      (mkMcpError MethodNotFound ("Unknown tool: " +:+ name))).

(** The message of the policy denial. *)
Definition readOnlyMessage (name : string) : string :=
  "Tool '" +:+ name +:+
  "' is not available in read-only mode. Set READ_ONLY=false to enable write operations.".

(** The [CallToolRequestSchema] handler:
    [[
  try {
    const { name, arguments: args = {} } = request.params;
    if (READ_ONLY && MUTATING_TOOLS.has(name)) {
      throw new McpError(ErrorCode.InvalidRequest, `Tool '${name}' is not ...`);
    }
    if (name === 'get_auth_url') { ... return { content: [...] }; }
    const client = await this.initializeClient();
    switch (name) { ... default: throw new McpError(MethodNotFound, ...); }
  } catch (error) { ... }
]] *)
Definition callTool (request : CallToolRequest) : Async CallToolResult :=
  tryCatch
    (let name := params_name request in
     let args := argsOf request in
     if READ_ONLY && has MUTATING_TOOLS name then
       throw (ThrownMcpError
         (mkMcpError InvalidRequest (readOnlyMessage name)))
     else if String.eqb name "get_auth_url" then
       authUrl ← getAuthUrl W;
       mret (textResult (authUrlText authUrl))
     else
       client ← initializeClient W;
       dispatch client name args)
    (fun error => throw (rethrow error)).

End Handler.

End Http.

(** ** Calls of [initializeClient] in flight together

    An [async] function runs without interruption up to its next [await];
    other handlers run while it is suspended.  [initializeClient] has one
    [await], at [getAuthClient()]. *)

Inductive InitTask : Type :=
| AtEntry                                     (* called, nothing run yet *)
| AtAwait (settled : Thrown + OAuth2Client)   (* suspended at the await *)
| Returned (result : Thrown + GoogleTasksClient).

Section Interleaving.

Variable W : Collaborators.

(** Run one task from where it stands to its next suspension point. *)
Definition resume (t : InitTask) (st : ServerState) : InitTask * ServerState :=
  match t with
  | AtEntry =>
      match (_ ← emit EvInitializeClient; readTasksClient) st with
      | (inr (Some client), st1) => (Returned (inr client), st1)
      | (inr None, st1) =>
          let '(settled, st2) := getAuthClient W st1 in (AtAwait settled, st2)
      | (inl e, st1) => (Returned (inl e), st1)
      end
  | AtAwait (inl e) => (Returned (inl e), st)
  | AtAwait (inr authClient) =>
      let '(result, st1) :=
        (client ← newGoogleTasksClient authClient;
         _ ← writeTasksClient client;
         mret client) st in
      (Returned result, st1)
  | Returned _ => (t, st)
  end.

(** The scheduler resumes the task at index [i]. *)
Definition stepPool (ps : list InitTask * ServerState) (i : nat)
  : list InitTask * ServerState :=
  match ps.1 !! i with
  | Some t => let '(t', st') := resume t ps.2 in (<[i := t']> ps.1, st')
  | None => ps
  end.

Definition runSchedule (schedule : list nat)
  (ps : list InitTask * ServerState) : list InitTask * ServerState :=
  fold_left stepPool schedule ps.

End Interleaving.

(** ** Collaborators for concrete runs *)

(** A token is on disk and every API call answers [null]. *)
Definition sampleWorld : Collaborators :=
  mkCollaborators "https://accounts.example/o/oauth2/auth"
    (fun _ => Some 7%nat)
    (fun _ _ _ => inr JNull)
    (fun _ => "null").

(** No [token.json]. *)
Definition noTokenWorld : Collaborators :=
  mkCollaborators "https://accounts.example/o/oauth2/auth"
    (fun _ => None)
    (fun _ _ _ => inr JNull)
    (fun _ => "null").

(** ** Vocabulary of the statements *)

(** The names of the catalog. *)
Definition registeredNames : list string := map name TOOL_DEFINITIONS.

(** The state with more events logged. *)
Definition logged (st : ServerState) (events : list Event) : ServerState :=
  mkServerState (tasksClient st) (log st ++ events).

(** The client method a tool name stands for in the [switch] of the
    handlers, with its arguments as read from the request; [None] for
    [get_auth_url] and for a name the [switch] does not know. *)
Definition underlyingAction (n : string) (args : gmap string JsValue)
  : option ApiCall :=
  if String.eqb n "list_task_lists" then Some listTaskLists
  else if String.eqb n "list_tasks" then
    Some (listTasks (prop args "taskListId") (prop args "showCompleted"))
  else if String.eqb n "create_task_list" then
    Some (createTaskList (prop args "title"))
  else if String.eqb n "create_task" then
    Some (createTask (prop args "taskListId") (prop args "title")
            (prop args "notes") (prop args "due"))
  else if String.eqb n "update_task" then
    Some (updateTask (prop args "taskListId") (prop args "taskId")
            (prop args "title") (prop args "notes") (prop args "status")
            (prop args "due"))
  else if String.eqb n "delete_task" then
    Some (deleteTask (prop args "taskListId") (prop args "taskId"))
  else None.

(** The text a handler answers with when the method resolved to [value]. *)
Definition successText (W : Collaborators) (n : string) (value : JsValue)
  : string :=
  if String.eqb n "delete_task" then "Task deleted successfully"
  else JSON_stringify W value.

(** [create_task] with a [taskListId] and no [title]. *)
Definition createTaskWithoutTitle : CallToolRequest :=
  mkRequest "create_task" (Some {[ "taskListId" := JStr [0x4C] ]}).

(** [list_tasks] with no arguments at all. *)
Definition listTasksWithoutList : CallToolRequest :=
  mkRequest "list_tasks" None.

(** A tool name that is not in the catalog. *)
Definition unknownToolRequest : CallToolRequest :=
  mkRequest "no_such_tool" None.

(** The client constructed first, from the token of [sampleWorld]. *)
Definition firstClient : GoogleTasksClient :=
  mkGoogleTasksClient 0%nat (mkOAuth2Client 7%nat).

(** The client constructed second. *)
Definition secondClient : GoogleTasksClient :=
  mkGoogleTasksClient 1%nat (mkOAuth2Client 7%nat).

(** The [required] list of the tool named [n] in the catalog. *)
Definition requiredFields (n : string) : list string :=
  match List.find (fun tool => String.eqb (name tool) n) TOOL_DEFINITIONS with
  | Some tool => default [] (required (inputSchema tool))
  | None => []
  end.

(** The failure of the policy check for the tool named [n]. *)
Definition readOnlyDenial (n : string) : Thrown :=
  ThrownMcpError
    (mkMcpError InvalidRequest
       ("Tool '" +:+ n +:+
        "' is not available in read-only mode. Set READ_ONLY=false to enable write operations.")).

(** The failure of the [default] case for the tool named [n]. *)
Definition unknownTool (n : string) : Thrown :=
  ThrownMcpError (mkMcpError MethodNotFound ("Unknown tool: " +:+ n)).

(** [k] calls of [initializeClient], one after the other: the handles
    returned, and the final state. *)
Fixpoint initializeClientTimes (W : Collaborators) (k : nat) (st : ServerState)
  : list (Thrown + GoogleTasksClient) * ServerState :=
  match k with
  | O => ([], st)
  | S k' =>
      let '(r, st1) := initializeClient W st in
      let '(rs, st2) := initializeClientTimes W k' st1 in
      (r :: rs, st2)
  end.

(** ** Requests served one after the other *)

(** A handler serving the requests of a list in order: the answers, and the
    state after the last one. *)
Fixpoint serveAll (handler : CallToolRequest -> Async CallToolResult)
  (requests : list CallToolRequest) (st : ServerState)
  : list (Thrown + CallToolResult) * ServerState :=
  match requests with
  | [] => ([], st)
  | request :: rest =>
      let '(answer, st1) := handler request st in
      let '(answers, st2) := serveAll handler rest st1 in
      (answer :: answers, st2)
  end.

(** The client methods that change the user's data. *)
Definition isMutatingCall (call : ApiCall) : bool :=
  match call with
  | createTaskList _ | createTask _ _ _ _ | updateTask _ _ _ _ _ _
  | deleteTask _ _ => true
  | listTaskLists | listTasks _ _ => false
  end.

Definition isMutatingEvent (e : Event) : bool :=
  match e with
  | EvApi _ call => isMutatingCall call
  | _ => false
  end.

(** The keys of [inputSchema.properties] of the tool named [n]. *)
Definition declaredProperties (n : string) : list string :=
  match List.find (fun tool => String.eqb (name tool) n) TOOL_DEFINITIONS with
  | Some tool => map fst (properties (inputSchema tool))
  | None => []
  end.

#[global] Instance OAuth2Client_eq_dec : EqDecision OAuth2Client.
Proof. solve_decision. Defined.

#[global] Instance GoogleTasksClient_eq_dec : EqDecision GoogleTasksClient.
Proof. solve_decision. Defined.

(** What a served request may add to the log once [client] is cached. *)
Definition usesOnly (client : GoogleTasksClient) (e : Event) : bool :=
  match e with
  | EvInitializeClient | EvGetAuthUrl => true
  | EvApi c _ => bool_decide (c = client)
  | EvGetAuthClient | EvNewGoogleTasksClient _ => false
  end.

(** A call of [initializeClient] that is not in flight across the moment
    [client] is cached: it has not run yet, or it has returned [client]. *)
Definition entersAfter (client : GoogleTasksClient) (t : InitTask) : Prop :=
  t = AtEntry \/ t = Returned (inr client).

(** A server with [firstClient] cached, after one earlier call. *)
Definition warmServer : ServerState :=
  mkServerState (Some firstClient)
    [EvInitializeClient; EvGetAuthClient;
     EvNewGoogleTasksClient (mkOAuth2Client 7%nat)].

(** [list_tasks] for the list "L". *)
Definition listTasksOfL : CallToolRequest :=
  mkRequest "list_tasks" (Some {[ "taskListId" := JStr [0x4C] ]}).

(** The same request with an argument the schema does not declare. *)
Definition listTasksOfL_extra : CallToolRequest :=
  mkRequest "list_tasks"
    (Some {[ "taskListId" := JStr [0x4C]; "verbose" := JBool true ]}).

(** ** Values without RTL text *)

(** No string of the value, at any depth, has a code unit of the RTL
    class. *)
Fixpoint rtlFree (value : JsValue) : bool :=
  match value with
  | JStr s => negb (hasRTL s)
  | JArr items => forallb rtlFree items
  | JObj fields => map_fold (fun _ x acc => rtlFree x && acc) true fields
  | _ => true
  end.

(** ** Values without a key [__proto__] *)

(** No object of the value, at any depth, owns the key [__proto__]. *)
Fixpoint protoFree (value : JsValue) : bool :=
  match value with
  | JArr items => forallb protoFree items
  | JObj fields =>
      bool_decide (fields !! protoKey = None)
      && map_fold (fun _ x acc => protoFree x && acc) true fields
  | _ => true
  end.

(** The value with the own key [__proto__] taken out of every object in
    it. *)
Fixpoint dropProto (value : JsValue) : JsValue :=
  match value with
  | JArr items => JArr (map dropProto items)
  | JObj fields =>
      JObj (map_imap (fun key x =>
              if String.eqb key protoKey then None else Some (dropProto x))
              fields)
  | _ => value
  end.

(** What [JSON.parse('{"__proto__":"x","id":"1"}')] returns: an object with
    the two own keys [__proto__] and [id]. *)
Definition parsedWithProto : JsValue :=
  JObj {[ protoKey := JStr [0x78]; "id" := JStr [0x31] ]}.

(** ** [src/tasks-client.ts] *)

(** [a || b] *)
Definition orElse (a b : JsValue) : JsValue := if falsy a then b else a.

(** [a ?? b] *)
Definition nullish (a b : JsValue) : JsValue :=
  match a with
  | JNull | JUndefined => b
  | _ => a
  end.

(** [options?.key] for an optional object. *)
Definition optionalProp (options : option (gmap string JsValue))
  (key : string) : JsValue :=
  match options with
  | Some o => prop o key
  | None => JUndefined
  end.

#[global] Instance Thrown_ret : MRet (sum Thrown) :=
  fun A a => inr a.

#[global] Instance Thrown_bind : MBind (sum Thrown) :=
  fun A B k m =>
    match m with
    | inl e => inl e
    | inr a => k a
    end.

Module TasksClient.

(** The methods of googleapis' [tasks_v1.Tasks] that the wrapper calls. *)
Inductive Endpoint : Type :=
| tasklists_list | tasklists_get | tasklists_insert | tasklists_update
| tasklists_delete
| tasks_list | tasks_get | tasks_insert | tasks_patch | tasks_delete
| tasks_move | tasks_clear.

(** [this.tasksApi.<endpoint>(params)] *)
Record Request : Type := mkApiRequest {
  endpoint : Endpoint;
  params : gmap string JsValue
}.

(** The request of [listTaskLists]. *)
Definition listTaskLists_request : Request :=
  mkApiRequest tasklists_list {[ "maxResults" := JNum 100 ]}.

(** The request of [listTasks]:
    [[
  { tasklist: taskListId,
    showCompleted: options?.showCompleted ?? false,
    showHidden: options?.showHidden ?? false,
    maxResults: options?.maxResults ?? 100 }
]] *)
Definition listTasks_request (taskListId : JsValue)
  (options : option (gmap string JsValue)) : Request :=
  mkApiRequest tasks_list
    {[ "tasklist" := taskListId;
       "showCompleted" :=
         nullish (optionalProp options "showCompleted") (JBool false);
       "showHidden" :=
         nullish (optionalProp options "showHidden") (JBool false);
       "maxResults" :=
         nullish (optionalProp options "maxResults") (JNum 100) ]}.

(** The request of [createTask]:
    [[
  { tasklist: taskListId,
    requestBody: { title: task.title, notes: task.notes, due: task.due },
    parent: task.parent }
]] *)
Definition createTask_request (taskListId : JsValue)
  (task : gmap string JsValue) : Request :=
  mkApiRequest tasks_insert
    {[ "tasklist" := taskListId;
       "requestBody" :=
         JObj {[ "title" := prop task "title";
                 "notes" := prop task "notes";
                 "due" := prop task "due" ]};
       "parent" := prop task "parent" ]}.

(** [if (updates.key !== undefined) requestBody.key = updates.key;] *)
Definition setIfDefined (updates : gmap string JsValue) (key : string)
  (requestBody : gmap string JsValue) : gmap string JsValue :=
  match prop updates key with
  | JUndefined => requestBody
  | value => <[key := value]> requestBody
  end.

(** The [requestBody] of [updateTask]:
    [[
  const requestBody = { id: taskId };
  if (updates.title !== undefined) requestBody.title = updates.title;
  if (updates.notes !== undefined) requestBody.notes = updates.notes;
  if (updates.due !== undefined) requestBody.due = updates.due;
  if (updates.status !== undefined) requestBody.status = updates.status;
]] *)
Definition updateTask_body (taskId : JsValue) (updates : gmap string JsValue)
  : gmap string JsValue :=
  setIfDefined updates "status"
    (setIfDefined updates "due"
       (setIfDefined updates "notes"
          (setIfDefined updates "title" {[ "id" := taskId ]}))).

(** The request of [updateTask]. *)
Definition updateTask_request (taskListId taskId : JsValue)
  (updates : gmap string JsValue) : Request :=
  mkApiRequest tasks_patch
    {[ "tasklist" := taskListId;
       "task" := taskId;
       "requestBody" := JObj (updateTask_body taskId updates) ]}.

Section Methods.

(** The promise of a [tasks_v1.Tasks] call: [response.data] when it
    resolves, the thrown value when it rejects. *)
Variable tasksApi : Request -> Thrown + gmap string JsValue.

(** [return response.data.items || [];] *)
Definition listTaskLists : Thrown + JsValue :=
  data ← tasksApi listTaskLists_request;
  mret (orElse (prop data "items") (JArr [])).

Definition getTaskList (taskListId : JsValue) : Thrown + JsValue :=
  data ← tasksApi (mkApiRequest tasklists_get {[ "tasklist" := taskListId ]});
  mret (JObj data).

Definition createTaskList (title : JsValue) : Thrown + JsValue :=
  data ← tasksApi
    (mkApiRequest tasklists_insert
       {[ "requestBody" := JObj {[ "title" := title ]} ]});
  mret (JObj data).

Definition updateTaskList (taskListId title : JsValue) : Thrown + JsValue :=
  data ← tasksApi
    (mkApiRequest tasklists_update
       {[ "tasklist" := taskListId;
          "requestBody" := JObj {[ "id" := taskListId; "title" := title ]} ]});
  mret (JObj data).

Definition deleteTaskList (taskListId : JsValue) : Thrown + JsValue :=
  _ ← tasksApi (mkApiRequest tasklists_delete {[ "tasklist" := taskListId ]});
  mret JUndefined.

Definition listTasks (taskListId : JsValue)
  (options : option (gmap string JsValue)) : Thrown + JsValue :=
  data ← tasksApi (listTasks_request taskListId options);
  mret (orElse (prop data "items") (JArr [])).

Definition getTask (taskListId taskId : JsValue) : Thrown + JsValue :=
  data ← tasksApi
    (mkApiRequest tasks_get {[ "tasklist" := taskListId; "task" := taskId ]});
  mret (JObj data).

Definition createTask (taskListId : JsValue) (task : gmap string JsValue)
  : Thrown + JsValue :=
  data ← tasksApi (createTask_request taskListId task);
  mret (JObj data).

Definition updateTask (taskListId taskId : JsValue)
  (updates : gmap string JsValue) : Thrown + JsValue :=
  data ← tasksApi (updateTask_request taskListId taskId updates);
  mret (JObj data).

Definition deleteTask (taskListId taskId : JsValue) : Thrown + JsValue :=
  _ ← tasksApi
    (mkApiRequest tasks_delete {[ "tasklist" := taskListId; "task" := taskId ]});
  mret JUndefined.

Definition moveTask (taskListId taskId : JsValue)
  (options : option (gmap string JsValue)) : Thrown + JsValue :=
  data ← tasksApi
    (mkApiRequest tasks_move
       {[ "tasklist" := taskListId;
          "task" := taskId;
          "parent" := optionalProp options "parent";
          "previous" := optionalProp options "previous" ]});
  mret (JObj data).

Definition clearCompletedTasks (taskListId : JsValue) : Thrown + JsValue :=
  _ ← tasksApi (mkApiRequest tasks_clear {[ "tasklist" := taskListId ]});
  mret JUndefined.

End Methods.

End TasksClient.

(** The method calls of the tool handlers, with the objects the handlers
    build at the call sites: [{ showCompleted: args.showCompleted }],
    [{ title: args.title, notes: args.notes, due: args.due }] and
    [{ title: ..., notes: ..., status: ..., due: ... }]. *)
Definition clientMethod
  (tasksApi : TasksClient.Request -> Thrown + gmap string JsValue)
  (call : ApiCall) : Thrown + JsValue :=
  match call with
  | listTaskLists => TasksClient.listTaskLists tasksApi
  | listTasks taskListId showCompleted =>
      TasksClient.listTasks tasksApi taskListId
        (Some {[ "showCompleted" := showCompleted ]})
  | createTaskList title => TasksClient.createTaskList tasksApi title
  | createTask taskListId title notes due =>
      TasksClient.createTask tasksApi taskListId
        {[ "title" := title; "notes" := notes; "due" := due ]}
  | updateTask taskListId taskId title notes status due =>
      TasksClient.updateTask tasksApi taskListId taskId
        {[ "title" := title; "notes" := notes; "status" := status;
           "due" := due ]}
  | deleteTask taskListId taskId =>
      TasksClient.deleteTask tasksApi taskListId taskId
  end.

(** The collaborators of a server whose clients are [GoogleTasksClient]s
    over the Google API [google]. *)
Definition overGoogle (authUrl : string) (tokens : list Event -> option Token)
  (google : list Event -> TasksClient.Request -> Thrown + gmap string JsValue)
  (stringify : JsValue -> string) : Collaborators :=
  mkCollaborators authUrl tokens
    (fun history _ call => clientMethod (google history) call)
    stringify.

(** What the [update_task] handler's object has under [key], for the
    arguments [args]: [undefined] unless [args] has a value there. *)
Definition sentValue (args : gmap string JsValue) (key : string)
  : option JsValue :=
  match args !! key with
  | None | Some JUndefined => None
  | Some value => Some value
  end.

(** ** [src/http-server.ts]: configuration and middleware *)

(** The ASCII text of a literal of the source, as code units. *)
Definition units (s : string) : jsString :=
  map (fun a => Z.of_nat (Ascii.nat_of_ascii a)) (String.list_ascii_of_string s).

(** The class [\s] of a regular expression: white space and line
    terminators. *)
Definition isWhiteSpace (u : Z) : bool :=
  inRange 0x09 0x0D u || (u =? 0x20) || (u =? 0xA0) || (u =? 0x1680) ||
  inRange 0x2000 0x200A u || (u =? 0x2028) || (u =? 0x2029) ||
  (u =? 0x202F) || (u =? 0x205F) || (u =? 0x3000) || (u =? 0xFEFF).

(** A letter of the pattern against a code unit under the flag [i]: the
    letter itself or its other case. *)
Definition sameLetter (letter u : Z) : bool :=
  (u =? letter) ||
  (inRange 0x41 0x5A letter && (u =? letter + 32)) ||
  (inRange 0x61 0x7A letter && (u =? letter - 32)).

(** Match the letters of [word] at the start of [s], ignoring case: the rest
    of [s] when they match. *)
Fixpoint matchWord (word s : jsString) : option jsString :=
  match word with
  | [] => Some s
  | letter :: word' =>
      match s with
      | u :: s' => if sameLetter letter u then matchWord word' s' else None
      | [] => None
      end
  end.

Fixpoint skipWhiteSpace (s : jsString) : jsString :=
  match s with
  | u :: s' => if isWhiteSpace u then skipWhiteSpace s' else s
  | [] => []
  end.

(** [authHeader.replace(/^Bearer\s+/i, '')] *)
Definition stripBearer (authHeader : jsString) : jsString :=
  match matchWord (units "Bearer") authHeader with
  | Some (u :: rest) =>
      if isWhiteSpace u then skipWhiteSpace rest else authHeader
  | _ => authHeader
  end.

(** What a middleware does with a request: pass it on, or answer. *)
Inductive Handled : Type :=
| next
| respond (status : Z) (error message : string).

(** [[
  const authHeader = req.get('authorization');
  const token = authHeader?.replace(/^Bearer\s+/i, '');
  if (!token || token !== MCP_TOKEN) {
    return res.status(401).json({ error: 'Unauthorized',
                                  message: 'Invalid or missing bearer token' });
  }
  next();
]] *)
Definition authMiddleware (MCP_TOKEN : jsString) (authHeader : option jsString)
  : Handled :=
  match stripBearer <$> authHeader with
  | Some token =>
      if isEmpty token || negb (bool_decide (token = MCP_TOKEN))
      then respond 401 "Unauthorized" "Invalid or missing bearer token"
      else next
  | None => respond 401 "Unauthorized" "Invalid or missing bearer token"
  end.

(** [s.startsWith(p)] *)
Fixpoint startsWith (s p : jsString) : bool :=
  match p with
  | [] => true
  | a :: p' =>
      match s with
      | b :: s' => (b =? a) && startsWith s' p'
      | [] => false
      end
  end.

(** The answer of the [origin] function of [corsOptions]:
    [callback(null, true)] or [callback(new Error(...))]. *)
Inductive CorsDecision : Type :=
| corsAllowed
| corsError (message : string).

(** [[
  if (!origin) return callback(null, true);
  if (NGROK_DOMAIN) {
    const allowedOrigins = [`https://${NGROK_DOMAIN}`, `http://${NGROK_DOMAIN}`];
    const isAllowed = allowedOrigins.some(allowed =>
      origin === allowed || origin.startsWith(allowed + '/'));
    if (isAllowed) callback(null, true);
    else callback(new Error('Not allowed by CORS'));
  } else callback(null, true);
]] *)
Definition corsOrigin (NGROK_DOMAIN origin : option jsString) : CorsDecision :=
  match origin with
  | None => corsAllowed
  | Some o =>
      if isEmpty o then corsAllowed
      else
        match NGROK_DOMAIN with
        | None => corsAllowed
        | Some domain =>
            if isEmpty domain then corsAllowed
            else
              let allowedOrigins :=
                [units "https://" ++ domain; units "http://" ++ domain] in
              if existsb
                   (fun allowed =>
                      bool_decide (o = allowed)
                      || startsWith o (allowed ++ units "/"))
                   allowedOrigins
              then corsAllowed
              else corsError "Not allowed by CORS"
        end
  end.

(** The environment variables the HTTP server validates or branches on. *)
Record HttpEnv : Type := mkHttpEnv {
  env_MCP_TOKEN : option jsString;
  env_READ_ONLY : option jsString;
  env_NGROK_DOMAIN : option jsString;
  env_GOOGLE_CLIENT_ID : option jsString;
  env_GOOGLE_CLIENT_SECRET : option jsString
}.

(** The constants of the module once the checks have passed. *)
Record HttpConfig : Type := mkHttpConfig {
  cfg_MCP_TOKEN : jsString;
  cfg_READ_ONLY : bool;
  cfg_NGROK_DOMAIN : option jsString;
  cfg_CLIENT_ID : jsString;
  cfg_CLIENT_SECRET : jsString
}.

(** [!value] for [string | undefined]. *)
Definition unset (value : option jsString) : bool :=
  match value with
  | Some s => isEmpty s
  | None => true
  end.

(** The top of the module, [None] standing for [process.exit(1)]:
    [[
  const READ_ONLY = process.env.READ_ONLY !== 'false';
  if (!MCP_TOKEN) { ...; process.exit(1); }
  if (MCP_TOKEN.length < 32) { ...; process.exit(1); }
  if (!CLIENT_ID || !CLIENT_SECRET) { ...; process.exit(1); }
]] *)
Definition loadHttpConfig (env : HttpEnv) : option HttpConfig :=
  let READ_ONLY :=
    negb (bool_decide (env_READ_ONLY env = Some (units "false"))) in
  match env_MCP_TOKEN env with
  | None => None
  | Some token =>
      if isEmpty token then None
      else if (length token <? 32)%nat then None
      else if unset (env_GOOGLE_CLIENT_ID env)
              || unset (env_GOOGLE_CLIENT_SECRET env) then None
      else
        Some (mkHttpConfig token READ_ONLY (env_NGROK_DOMAIN env)
                (default [] (env_GOOGLE_CLIENT_ID env))
                (default [] (env_GOOGLE_CLIENT_SECRET env)))
  end.

(** The word [Bearer] in some casing. *)
Definition isBearerWord (scheme : jsString) : bool :=
  match matchWord (units "Bearer") scheme with
  | Some [] => true
  | _ => false
  end.

(** A 32-unit token for the concrete runs. *)
Definition sampleToken : jsString := units "0123456789abcdef0123456789abcdef".

(** The string begins with a code unit of the class [\s]. *)
Definition leadingWhiteSpace (s : jsString) : bool :=
  match s with
  | u :: _ => isWhiteSpace u
  | [] => false
  end.

(** An environment with a token and the credentials, and [READ_ONLY] not
    set. *)
Definition sampleEnv : HttpEnv :=
  mkHttpEnv (Some sampleToken) None None
    (Some (units "id.apps.googleusercontent.com")) (Some (units "secret")).

(** ** [src/auth.ts]: the token file

    The file system is a finite map from paths to file contents, and its
    operations succeed unless a file to read is missing. *)

Module Auth.

(** The fields of the manager that change: [oauth2Client.credentials], and
    the files on disk. *)
Record State : Type := mkState {
  credentials : JsValue;
  files : gmap string string
}.

(** The message of the error [getAuthClient] throws. *)
Definition noValidToken : string :=
  "No valid token found. Please authenticate first using getAuthUrl() and authenticate().".

Section Manager.

Variable tokenPath : string.

(** [JSON.parse(text)]: the message of the [SyntaxError], or the value. *)
Variable JSON_parse : string -> string + JsValue.

(** [JSON.stringify(value, null, 2)] *)
Variable JSON_stringify : JsValue -> string.

(** [oauth2Client.getToken(code)]: the [tokens] of the answer, or what the
    call throws. *)
Variable getToken : string -> Thrown + JsValue.

(** [[
  const tokenData = await fs.readFile(this.tokenPath, 'utf-8');
  return JSON.parse(tokenData);
]] *)
Definition loadToken (st : State) : Thrown + JsValue :=
  match files st !! tokenPath with
  | None =>
      inl (ThrownError
             ("ENOENT: no such file or directory, open '" +:+ tokenPath +:+ "'"))
  | Some tokenData =>
      match JSON_parse tokenData with
      | inl syntaxError => inl (ThrownError syntaxError)
      | inr token => inr token
      end
  end.

(** [this.oauth2Client.setCredentials(token)] *)
Definition setCredentials (token : JsValue) (st : State) : State :=
  mkState token (files st).

(** First revision:
    [await fs.writeFile(this.tokenPath, JSON.stringify(tokens, null, 2));] *)
Definition saveToken (tokens : JsValue) (st : State) : State :=
  mkState (credentials st) (<[tokenPath := JSON_stringify tokens]> (files st)).

(** Second revision:
    [[
  await fs.mkdir(dir, { recursive: true });
  const tmp = `${this.tokenPath}.tmp`;
  const data = JSON.stringify(tokens, null, 2);
  await fs.writeFile(tmp, data, { mode: 0o600 });
  await fs.rename(tmp, this.tokenPath);
]] *)
Definition saveToken_atomic (tokens : JsValue) (st : State) : State :=
  let tmp := tokenPath +:+ ".tmp" in
  let data := JSON_stringify tokens in
  let written := <[tmp := data]> (files st) in
  let renamed :=
    match written !! tmp with
    | Some content => <[tokenPath := content]> (delete tmp written)
    | None => written
    end in
  mkState (credentials st) renamed.

(** [[
  try { const token = await this.loadToken();
        this.oauth2Client.setCredentials(token); return this.oauth2Client; }
  catch (error) { throw new Error('No valid token found. ...'); }
]]
    The client returned is given by its credentials. *)
Definition getAuthClient (st : State) : (Thrown + JsValue) * State :=
  match loadToken st with
  | inr token => (inr token, setCredentials token st)
  | inl _ => (inl (ThrownError noValidToken), st)
  end.

(** [[
  const { tokens } = await this.oauth2Client.getToken(code);
  this.oauth2Client.setCredentials(tokens);
  await this.saveToken(tokens);
]] *)
Definition authenticate (save : JsValue -> State -> State) (code : string)
  (st : State) : (Thrown + unit) * State :=
  match getToken code with
  | inl e => (inl e, st)
  | inr tokens => (inr tt, save tokens (setCredentials tokens st))
  end.

(** First revision:
    [try { await this.loadToken(); return true; } catch { return false; }] *)
Definition hasValidToken (st : State) : bool :=
  match loadToken st with
  | inr _ => true
  | inl _ => false
  end.

(** [{ ...(this.oauth2Client.credentials || {}), ...tokens }] for two
    objects; a falsy [credentials] counts as [{}]. *)
Definition mergeTokens (current : JsValue) (tokens : gmap string JsValue)
  : gmap string JsValue :=
  match current with
  | JObj fields => tokens ∪ fields
  | _ => tokens
  end.

(** The listener of the second revision:
    [[
  this.oauth2Client.on('tokens', async (tokens) => {
    const merged = { ...(this.oauth2Client.credentials || {}), ...tokens };
    try { await this.saveToken(merged); } catch (e) { console.error(...); }
  });
]] *)
Definition onTokens (tokens : gmap string JsValue) (st : State) : State :=
  saveToken_atomic (JObj (mergeTokens (credentials st) tokens)) st.

End Manager.

End Auth.

(** Stand-ins for the concrete runs on the token file: one token object and
    the text it is written as. *)
Definition sampleCredentials : gmap string JsValue :=
  {[ "access_token" := JStr [0x61]; "refresh_token" := JStr [0x72] ]}.

Definition sampleRefresh : gmap string JsValue :=
  {[ "access_token" := JStr [0x62] ]}.

Definition sampleStringify (value : JsValue) : string := "{...}".

Definition sampleParse (tokens : JsValue) (text : string) : string + JsValue :=
  if String.eqb text "{...}" then inr tokens
  else inl "Unexpected token".

Definition sampleGetToken (code : string) : Thrown + JsValue :=
  if String.eqb code "4/0Ab" then inr (JObj sampleCredentials)
  else inl (ThrownError "invalid_grant").

Definition noFiles : Auth.State := Auth.mkState JUndefined ∅.

(** * Properties *)

(** ** The formatter *)

Example shalom_reversed :
  Utils.formatForTerminal (TString [0x05E9; 0x05DC; 0x05D5; 0x05DD])
  = [0x05DD; 0x05D5; 0x05DC; 0x05E9].
Proof. reflexivity. Qed.

Example english_unchanged :
  Utils.formatForTerminal (TString [0x48; 0x69]) = [0x48; 0x69].
Proof. reflexivity. Qed.

Example wave_kept :
  UtilsGrapheme.formatForTerminal (Some segmentCodePoints)
    (TString [0x05E9; 0xD83D; 0xDC4B])
  = [0xD83D; 0xDC4B; 0x05E9].
Proof. reflexivity. Qed.

Ltac range_cases :=
  unfold isRTL, isHighSurrogate, isLowSurrogate, surrogatePair, inRange in *;
  repeat match goal with
         | H : context [?a <=? ?b] |- _ => destruct (Z.leb_spec a b); simpl in H
         | |- context [?a <=? ?b] => destruct (Z.leb_spec a b); simpl
         end;
  try discriminate; try reflexivity; try lia.

Lemma surrogates_not_RTL hi lo :
  isHighSurrogate hi = true -> isLowSurrogate lo = true ->
  isRTL hi = false /\ isRTL lo = false /\ isRTL (surrogatePair hi lo) = false.
Proof. intros Hhi Hlo. repeat split; range_cases. Qed.

Lemma hasRTL_rev s : hasRTL (rev s) = hasRTL s.
Proof.
  unfold hasRTL. induction s as [|u s IH]; simpl; [reflexivity|].
  rewrite existsb_app, IH. simpl.
  rewrite orb_false_r. apply orb_comm.
Qed.

Lemma isEmpty_rev s : isEmpty (rev s) = isEmpty s.
Proof.
  destruct s as [|u s]; simpl; [reflexivity|].
  destruct (rev s ++ [u]) eqn:E; [|reflexivity].
  apply app_eq_nil in E as [_ E]. discriminate.
Qed.

Lemma hasRTL_nonempty s : hasRTL s = true -> isEmpty s = false.
Proof. destruct s; [discriminate | reflexivity]. Qed.

(** The test on code units is the test on code points: every class lies in
    the basic plane and holds no surrogate. *)
Lemma hasRTL_codePoints s : existsb isRTL (codePoints s) = hasRTL s.
Proof.
  unfold hasRTL.
  assert (H : existsb isRTL (codePoints s) = existsb isRTL s /\
              forall u, existsb isRTL (codePoints (u :: s))
                        = existsb isRTL (u :: s)).
  { induction s as [|v s [IH1 IH2]].
    - split; [reflexivity|]. intros u. simpl. reflexivity.
    - split; [apply IH2|]. intros u.
      change (codePoints (u :: v :: s))
        with (if isHighSurrogate u && isLowSurrogate v
              then surrogatePair u v :: codePoints s
              else u :: codePoints (v :: s)).
      destruct (isHighSurrogate u && isLowSurrogate v) eqn:E.
      + apply andb_true_iff in E as [Hu Hv].
        destruct (surrogates_not_RTL u v Hu Hv) as (Ru & Rv & Rp).
        cbn [existsb]. rewrite Ru, Rv, Rp. simpl. exact IH1.
      + cbn [existsb]. rewrite IH2. reflexivity. }
  apply H.
Qed.

Lemma no_RTL_codePoint s :
  (forall cp, In cp (codePoints s) -> isRTL cp = false) -> hasRTL s = false.
Proof.
  intros H. rewrite <- hasRTL_codePoints.
  destruct (existsb isRTL (codePoints s)) eqn:E; [|reflexivity].
  apply existsb_exists in E as (cp & Hin & Hcp).
  rewrite (H cp Hin) in Hcp. discriminate.
Qed.

Lemma substringOf_concat_rev (c : jsString) (l : list jsString) :
  In c l -> substringOf c (concat (rev l)).
Proof.
  intros Hin. apply in_rev in Hin.
  apply in_split in Hin as (l1 & l2 & E).
  exists (concat l1), (concat l2).
  rewrite E, concat_app. reflexivity.
Qed.

Lemma formatForTerminal_twice (s : jsString) :
  Utils.formatForTerminal (TString (Utils.formatForTerminal (TString s))) = s.
Proof.
  unfold Utils.formatForTerminal.
  destruct (isEmpty s) eqn:E.
  - destruct s; [reflexivity | discriminate].
  - destruct (hasRTL s) eqn:H.
    + rewrite isEmpty_rev, E, hasRTL_rev, H. apply rev_involutive.
    + rewrite E, H. reflexivity.
Qed.

(** C10. [formatForTerminal] of [src/utils.ts] (reversal by code unit) is an
    involution on all strings: applying it twice gives the string back. *)
Theorem formatForTerminal_involutive (s : jsString) :
  Utils.formatForTerminal (TString (Utils.formatForTerminal (TString s))) = s.
Proof.
  destruct s as [|u s]; [reflexivity|].
  unfold Utils.formatForTerminal. cbn [isEmpty].
  destruct (hasRTL (u :: s)) eqn:H.
  - rewrite isEmpty_rev, hasRTL_rev, H. cbn [isEmpty]. apply rev_involutive.
  - cbn [isEmpty]. rewrite H. reflexivity.
Qed.

(** C9. A string with no code point in the listed ranges is returned
    unchanged, by both revisions and whatever the segmenter; [null],
    [undefined] and the empty string give the empty string. *)
Theorem formatForTerminal_without_RTL (s : jsString) :
  (forall cp, In cp (codePoints s) -> isRTL cp = false) ->
  (Utils.formatForTerminal (TString s) = s /\
   forall segmenter, UtilsGrapheme.formatForTerminal segmenter (TString s) = s)
  /\
  (Utils.formatForTerminal TNull = [] /\
   Utils.formatForTerminal TUndefined = [] /\
   Utils.formatForTerminal (TString []) = [] /\
   forall segmenter,
     UtilsGrapheme.formatForTerminal segmenter TNull = [] /\
     UtilsGrapheme.formatForTerminal segmenter TUndefined = [] /\
     UtilsGrapheme.formatForTerminal segmenter (TString []) = []).
Proof.
  intros H. apply no_RTL_codePoint in H.
  split; [|repeat split].
  unfold Utils.formatForTerminal, UtilsGrapheme.formatForTerminal.
  rewrite H. destruct s; split; reflexivity.
Qed.

(** "Hi" followed by the waving hand U+1F44B, a code point outside the basic
    plane. *)
Lemma formatForTerminal_without_RTL_witness :
  (Utils.formatForTerminal (TString [0x48; 0x69; 0xD83D; 0xDC4B])
     = [0x48; 0x69; 0xD83D; 0xDC4B] /\
   forall segmenter,
     UtilsGrapheme.formatForTerminal segmenter
       (TString [0x48; 0x69; 0xD83D; 0xDC4B])
     = [0x48; 0x69; 0xD83D; 0xDC4B])
  /\
  (Utils.formatForTerminal TNull = [] /\
   Utils.formatForTerminal TUndefined = [] /\
   Utils.formatForTerminal (TString []) = [] /\
   forall segmenter,
     UtilsGrapheme.formatForTerminal segmenter TNull = [] /\
     UtilsGrapheme.formatForTerminal segmenter TUndefined = [] /\
     UtilsGrapheme.formatForTerminal segmenter (TString []) = []).
Proof.
  apply (formatForTerminal_without_RTL [0x48; 0x69; 0xD83D; 0xDC4B]).
  intros cp Hin. simpl in Hin.
  destruct Hin as [<- | [<- | [<- | []]]]; reflexivity.
Defined.

Lemma not_substring_of_reversed_pair :
  ~ substringOf [0xD83D; 0xDC4B]
      [0xDC4B; 0xD83D; 0x05DD; 0x05D5; 0x05DC; 0x05E9].
Proof.
  intros (pre & post & E).
  destruct pre as [|a [|b [|c [|d [|e [|f [|g pre]]]]]]]; simpl in E;
    discriminate.
Qed.

(** C1 fails on [src/utils.ts].  The input of the repository's own test,
    shalom followed by the waving hand U+1F44B (one code point, the two code
    units D83D DC4B), is classified RTL.  [src/utils.ts] reverses it by code
    unit: the two halves of the surrogate pair change places and the waving
    hand is no longer a substring of the result, which the test expects it
    to be.  The later revision, with a segmenter that gives the five
    clusters of the string, moves the waving hand to the front whole. *)
Theorem formatForTerminal_splits_cluster :
  hasRTL [0x05E9; 0x05DC; 0x05D5; 0x05DD; 0xD83D; 0xDC4B] = true /\
  codePoints [0x05E9; 0x05DC; 0x05D5; 0x05DD; 0xD83D; 0xDC4B]
    = [0x05E9; 0x05DC; 0x05D5; 0x05DD; 0x1F44B] /\
  Utils.formatForTerminal
      (TString [0x05E9; 0x05DC; 0x05D5; 0x05DD; 0xD83D; 0xDC4B])
    = [0xDC4B; 0xD83D; 0x05DD; 0x05D5; 0x05DC; 0x05E9] /\
  ~ substringOf [0xD83D; 0xDC4B]
      (Utils.formatForTerminal
         (TString [0x05E9; 0x05DC; 0x05D5; 0x05DD; 0xD83D; 0xDC4B])) /\
  (forall segment : jsString -> list jsString,
     segment [0x05E9; 0x05DC; 0x05D5; 0x05DD; 0xD83D; 0xDC4B]
       = [[0x05E9]; [0x05DC]; [0x05D5]; [0x05DD]; [0xD83D; 0xDC4B]] ->
     UtilsGrapheme.formatForTerminal (Some segment)
       (TString [0x05E9; 0x05DC; 0x05D5; 0x05DD; 0xD83D; 0xDC4B])
     = [0xD83D; 0xDC4B; 0x05DD; 0x05D5; 0x05DC; 0x05E9]).
Proof.
  split; [reflexivity|]. split; [reflexivity|]. split; [reflexivity|].
  split; [exact not_substring_of_reversed_pair|].
  intros segment E. unfold UtilsGrapheme.formatForTerminal.
  cbn [isEmpty].
  replace (hasRTL [0x05E9; 0x05DC; 0x05D5; 0x05DD; 0xD83D; 0xDC4B])
    with true by reflexivity.
  rewrite E. reflexivity.
Qed.

(** X18. The later revision of [formatForTerminal] keeps clusters whole.
    When the runtime has a segmenter, a string classified RTL is mapped to
    its clusters concatenated in reverse order, so every cluster of the
    input is a contiguous substring of the output.  Without a segmenter the
    string is reversed by code unit, which is what [src/utils.ts] always
    does. *)
Theorem formatForTerminal_reverses_clusters
  (segment : jsString -> list jsString) (s : jsString) :
  hasRTL s = true ->
  UtilsGrapheme.formatForTerminal (Some segment) (TString s)
    = concat (rev (segment s)) /\
  (forall c, In c (segment s) ->
     substringOf c (UtilsGrapheme.formatForTerminal (Some segment) (TString s)))
  /\
  UtilsGrapheme.formatForTerminal None (TString s) = rev s /\
  Utils.formatForTerminal (TString s) = rev s.
Proof.
  intros H.
  assert (E : UtilsGrapheme.formatForTerminal (Some segment) (TString s)
              = concat (rev (segment s))).
  { unfold UtilsGrapheme.formatForTerminal.
    rewrite (hasRTL_nonempty s H), H. reflexivity. }
  split; [exact E|]. split.
  - intros c Hin. rewrite E. apply substringOf_concat_rev, Hin.
  - unfold UtilsGrapheme.formatForTerminal, Utils.formatForTerminal.
    rewrite (hasRTL_nonempty s H), H. split; reflexivity.
Qed.

(** The test string of the repository, shalom followed by the waving hand. *)
Lemma formatForTerminal_reverses_clusters_witness :
  UtilsGrapheme.formatForTerminal (Some segmentCodePoints)
      (TString [0x05E9; 0x05DC; 0x05D5; 0x05DD; 0xD83D; 0xDC4B])
    = concat (rev (segmentCodePoints
                     [0x05E9; 0x05DC; 0x05D5; 0x05DD; 0xD83D; 0xDC4B])) /\
  (forall c,
     In c (segmentCodePoints [0x05E9; 0x05DC; 0x05D5; 0x05DD; 0xD83D; 0xDC4B]) ->
     substringOf c
       (UtilsGrapheme.formatForTerminal (Some segmentCodePoints)
          (TString [0x05E9; 0x05DC; 0x05D5; 0x05DD; 0xD83D; 0xDC4B])))
  /\
  UtilsGrapheme.formatForTerminal None
      (TString [0x05E9; 0x05DC; 0x05D5; 0x05DD; 0xD83D; 0xDC4B])
    = rev [0x05E9; 0x05DC; 0x05D5; 0x05DD; 0xD83D; 0xDC4B] /\
  Utils.formatForTerminal
      (TString [0x05E9; 0x05DC; 0x05D5; 0x05DD; 0xD83D; 0xDC4B])
    = rev [0x05E9; 0x05DC; 0x05D5; 0x05DD; 0xD83D; 0xDC4B].
Proof.
  apply (formatForTerminal_reverses_clusters segmentCodePoints
           [0x05E9; 0x05DC; 0x05D5; 0x05DD; 0xD83D; 0xDC4B]).
  reflexivity.
Defined.

Example wave_first :
  UtilsGrapheme.formatForTerminal (Some segmentCodePoints)
    (TString [0x05E9; 0x05DC; 0x05D5; 0x05DD; 0xD83D; 0xDC4B])
  = [0xD83D; 0xDC4B; 0x05DD; 0x05D5; 0x05DC; 0x05E9].
Proof. reflexivity. Qed.

(** ** The structural formatter *)

Section FormatJsonFacts.

Variable fmt : Text -> jsString.
Variable rtlFields : list string.

Lemma formatJsonForTerminal_array (items : list JsValue) :
  formatJsonForTerminal fmt rtlFields (JArr items)
  = JArr (map (formatJsonForTerminal fmt rtlFields) items).
Proof. reflexivity. Qed.

Lemma formatJsonForTerminal_scalar (value : JsValue) :
  isScalar value = true -> formatJsonForTerminal fmt rtlFields value = value.
Proof.
  destruct value as [| |b|n|s|items|fields]; intros H; try discriminate;
    cbn; try reflexivity.
  - destruct b; reflexivity.
  - destruct (n =? 0); reflexivity.
  - destruct s; reflexivity.
Qed.

Lemma formatJsonForTerminal_fields (fields : gmap string JsValue) :
  formatJsonForTerminal fmt rtlFields (JObj fields)
  = JObj (map_imap (fun key value =>
            if String.eqb key protoKey then None
            else Some (formatEntry fmt rtlFields key value)) fields).
Proof.
  cbn [formatJsonForTerminal falsy]. f_equal.
  apply map_eq. intros key. rewrite !map_lookup_imap.
  destruct (fields !! key) as [value|]; [|reflexivity].
  cbn. destruct (String.eqb key protoKey); [reflexivity|].
  f_equal. destruct value; reflexivity.
Qed.

(** The own properties of the object returned for [fields]. *)
Lemma formatJsonForTerminal_lookup (fields : gmap string JsValue)
  (key : string) :
  map_imap (fun key value =>
    if String.eqb key protoKey then None
    else Some (formatEntry fmt rtlFields key value)) fields !! key
  = if String.eqb key protoKey then None
    else formatEntry fmt rtlFields key <$> fields !! key.
Proof.
  rewrite map_lookup_imap.
  destruct (fields !! key) as [value|]; cbn;
    destruct (String.eqb key protoKey); reflexivity.
Qed.

End FormatJsonFacts.

(** C8 fails on the code for an object that owns the key [__proto__].  For
    the object that [JSON.parse] makes of [{"__proto__":"x","id":"1"}] the
    loop assigns [formatted["__proto__"] = "x"], which runs the setter
    inherited from [Object.prototype] and stores nothing: the object returned
    owns [id] alone, whatever the [formatForTerminal] in use, so the key set
    is not the one of the input.  Its prototype is left as it was. *)
Theorem formatJsonForTerminal_drops_proto_key :
  parsedWithProto = JObj {[ "__proto__" := JStr [0x78]; "id" := JStr [0x31] ]} /\
  (forall fmt : Text -> jsString,
     formatJsonForTerminal fmt rtlFields_default parsedWithProto
     = JObj {[ "id" := JStr [0x31] ]}) /\
  formatJsonForTerminal Utils.formatForTerminal rtlFields_default
    parsedWithProto
  = JObj {[ "id" := JStr [0x31] ]} /\
  dom ({[ "__proto__" := JStr [0x78]; "id" := JStr [0x31] ]}
         : gmap string JsValue)
  <> dom ({[ "id" := JStr [0x31] ]} : gmap string JsValue) /\
  (forall fmt : Text -> jsString,
     prototypeOfFormatted fmt rtlFields_default
       {[ "__proto__" := JStr [0x78]; "id" := JStr [0x31] ]}
     = ObjectPrototype).
Proof.
  split; [reflexivity|].
  split; [intros fmt; vm_compute; reflexivity|].
  split; [vm_compute; reflexivity|].
  split; [|intros fmt; vm_compute; reflexivity].
  intros E.
  assert (H : "__proto__" ∈ dom ({[ "id" := JStr [0x31] ]}
                                   : gmap string JsValue)).
  { rewrite <- E. apply elem_of_dom. eexists. vm_compute. reflexivity. }
  apply elem_of_dom in H as [x H]. vm_compute in H. discriminate H.
Qed.

(** X19. What [formatJsonForTerminal] does to an object, an array and a
    scalar.  The object returned owns the keys of the input but [__proto__];
    under each of them it holds [formatForTerminal] of the old value when the
    key is in [rtlFields] and the value is a string, the old value itself for
    every other scalar, and the recursive result (same [rtlFields]) for a
    nested array or object, whatever the key.  For an input without the key
    [__proto__] the key set is the one of the input and the prototype is
    [Object.prototype].  An array is mapped element by element, order kept,
    and a scalar that is not under a key (an element of an array, or the
    whole input) is returned as it is, a string included. *)
Theorem formatJsonForTerminal_object
  (fmt : Text -> jsString) (rtlFields : list string) :
  (forall fields : gmap string JsValue,
     exists formatted : gmap string JsValue,
       formatJsonForTerminal fmt rtlFields (JObj fields) = JObj formatted /\
       dom formatted = dom fields ∖ {[ protoKey ]} /\
       (forall key,
          key <> protoKey ->
          formatted !! key = formatEntry fmt rtlFields key <$> fields !! key) /\
       (fields !! protoKey = None ->
        dom formatted = dom fields /\
        prototypeOfFormatted fmt rtlFields fields = ObjectPrototype))
  /\
  (forall key s,
     formatEntry fmt rtlFields key (JStr s)
     = if bool_decide (key ∈ rtlFields)
       then JStr (fmt (TString s)) else JStr s)
  /\
  (forall key,
     formatEntry fmt rtlFields key JNull = JNull /\
     formatEntry fmt rtlFields key JUndefined = JUndefined /\
     (forall b, formatEntry fmt rtlFields key (JBool b) = JBool b) /\
     (forall n, formatEntry fmt rtlFields key (JNum n) = JNum n))
  /\
  (forall key items,
     formatEntry fmt rtlFields key (JArr items)
     = JArr (map (formatJsonForTerminal fmt rtlFields) items))
  /\
  (forall key nested,
     formatEntry fmt rtlFields key (JObj nested)
     = formatJsonForTerminal fmt rtlFields (JObj nested))
  /\
  (forall items,
     formatJsonForTerminal fmt rtlFields (JArr items)
     = JArr (map (formatJsonForTerminal fmt rtlFields) items))
  /\
  (forall value,
     isScalar value = true ->
     formatJsonForTerminal fmt rtlFields value = value).
Proof.
  split.
  { intros fields. eexists.
    split; [apply formatJsonForTerminal_fields|].
    pose proof (formatJsonForTerminal_lookup fmt rtlFields fields) as L.
    assert (D : dom (map_imap (fun key value =>
                  if String.eqb key protoKey then None
                  else Some (formatEntry fmt rtlFields key value)) fields)
                = dom fields ∖ {[ protoKey ]}).
    { apply set_eq. intros key.
      rewrite elem_of_difference, !elem_of_dom, elem_of_singleton, L.
      destruct (String.eqb_spec key protoKey) as [->|N].
      - split; [intros [x E]; discriminate E | intros [_ N]; destruct N;
                reflexivity].
      - destruct (fields !! key); cbn; split.
        + intros _. split; [eauto | exact N].
        + intros _. eauto.
        + intros [x E]. discriminate E.
        + intros [[x E] _]. discriminate E. }
    split; [exact D|]. split.
    - intros key N. rewrite L.
      destruct (String.eqb_spec key protoKey) as [E|_]; [destruct (N E)|].
      reflexivity.
    - intros N. split.
      + rewrite D. apply set_eq. intros key.
        rewrite elem_of_difference, elem_of_singleton, elem_of_dom.
        split; [intros [H _]; exact H|].
        intros H. split; [exact H|]. intros ->.
        rewrite N in H. destruct H as [x H]. discriminate H.
      + unfold prototypeOfFormatted. rewrite N. reflexivity. }
  split; [reflexivity|]. split; [repeat split; reflexivity|].
  split; [reflexivity|]. split; [reflexivity|]. split; [reflexivity|].
  apply formatJsonForTerminal_scalar.
Qed.

(** A task as the API returns it, title in Hebrew letters. *)
Lemma formatJsonForTerminal_object_witness :
  ({[ "title" := JStr [0x05E9; 0x05DC]; "id" := JStr [0x31] ]}
     : gmap string JsValue) !! protoKey = None /\
  exists formatted : gmap string JsValue,
    formatJsonForTerminal Utils.formatForTerminal rtlFields_default
      (JObj {[ "title" := JStr [0x05E9; 0x05DC]; "id" := JStr [0x31] ]})
    = JObj formatted /\
    dom formatted
    = dom ({[ "title" := JStr [0x05E9; 0x05DC]; "id" := JStr [0x31] ]}
             : gmap string JsValue).
Proof.
  assert (N : ({[ "title" := JStr [0x05E9; 0x05DC]; "id" := JStr [0x31] ]}
                 : gmap string JsValue) !! protoKey = None)
    by (vm_compute; reflexivity).
  split; [exact N|].
  destruct (formatJsonForTerminal_object Utils.formatForTerminal
              rtlFields_default) as [O _].
  destruct (O {[ "title" := JStr [0x05E9; 0x05DC]; "id" := JStr [0x31] ]})
    as (formatted & E & _ & _ & K).
  exists formatted. split; [exact E | exact (proj1 (K N))].
Defined.

(** The example of the specification: [{title: "shalom", id: "123"}] with the
    title in Hebrew letters. *)
Example title_formatted_id_kept :
  formatJsonForTerminal Utils.formatForTerminal rtlFields_default
    (JObj {[ "title" := JStr [0x05E9; 0x05DC; 0x05D5; 0x05DD];
             "id" := JStr [0x31; 0x32; 0x33] ]})
  = JObj {[ "title" := JStr [0x05DD; 0x05D5; 0x05DC; 0x05E9];
            "id" := JStr [0x31; 0x32; 0x33] ]}.
Proof. vm_compute. reflexivity. Qed.

(** A Hebrew string under a key outside [rtlFields] stays as it is, and a
    nested object under a listed key is traversed, not formatted itself. *)
Example other_field_kept_nested_traversed :
  formatJsonForTerminal Utils.formatForTerminal rtlFields_default
    (JObj {[ "id" := JStr [0x05E9; 0x05DC];
             "notes" := JObj {[ "title" := JStr [0x05E9; 0x05DC] ]} ]})
  = JObj {[ "id" := JStr [0x05E9; 0x05DC];
            "notes" := JObj {[ "title" := JStr [0x05DC; 0x05E9] ]} ]}.
Proof. vm_compute. reflexivity. Qed.

(** A Hebrew string that is an element of an array is not under a key and
    stays as it is. *)
Example string_in_array_kept :
  formatJsonForTerminal Utils.formatForTerminal rtlFields_default
    (JObj {[ "title" := JArr [JStr [0x05E9; 0x05DC]; JNum 1] ]})
  = JObj {[ "title" := JArr [JStr [0x05E9; 0x05DC]; JNum 1] ]}.
Proof. vm_compute. reflexivity. Qed.

(** An object under [__proto__] becomes the prototype of the object
    returned, and [null] leaves it without one. *)
Example proto_object_becomes_prototype :
  prototypeOfFormatted Utils.formatForTerminal rtlFields_default
    {[ "__proto__" := JObj {[ "title" := JStr [0x05E9; 0x05DC] ]} ]}
  = ValuePrototype (JObj {[ "title" := JStr [0x05DC; 0x05E9] ]}) /\
  prototypeOfFormatted Utils.formatForTerminal rtlFields_default
    {[ "__proto__" := JNull ]}
  = NullPrototype /\
  formatJsonForTerminal Utils.formatForTerminal rtlFields_default
    (JObj {[ "__proto__" := JObj {[ "title" := JStr [0x05E9; 0x05DC] ]} ]})
  = JObj ∅.
Proof. repeat split; vm_compute; reflexivity. Qed.

(** *** Induction on values *)

Lemma JsValue_size_item (items : list JsValue) (x : JsValue) :
  In x items -> (JsValue_size x < JsValue_size (JArr items))%nat.
Proof.
  intros H. cbn [JsValue_size].
  induction items as [|y items IH]; [destruct H|].
  cbn [foldr]. destruct H as [-> | H]; [lia|].
  specialize (IH H). lia.
Qed.

Lemma JsValue_size_field (fields : gmap string JsValue) (key : string)
  (x : JsValue) :
  fields !! key = Some x -> (JsValue_size x < JsValue_size (JObj fields))%nat.
Proof.
  intros H. cbn [JsValue_size].
  rewrite <- (insert_delete_id fields key x H).
  rewrite map_fold_insert_L.
  - lia.
  - intros. lia.
  - apply lookup_delete_eq.
Qed.

Lemma JsValue_nested_ind (P : JsValue -> Prop) :
  P JNull -> P JUndefined -> (forall b, P (JBool b)) ->
  (forall n, P (JNum n)) -> (forall s, P (JStr s)) ->
  (forall items, (forall x, In x items -> P x) -> P (JArr items)) ->
  (forall fields : gmap string JsValue,
     (forall key x, fields !! key = Some x -> P x) -> P (JObj fields)) ->
  forall value, P value.
Proof.
  intros HN HU HB HZ HS HA HO value.
  remember (JsValue_size value) as n eqn:E. revert value E.
  induction n as [n IH] using lt_wf_ind. intros value ->.
  destruct value; auto.
  - apply HA. intros x Hx.
    apply (IH (JsValue_size x)); [apply JsValue_size_item, Hx | reflexivity].
  - apply HO. intros key x Hx.
    apply (IH (JsValue_size x));
      [apply (JsValue_size_field _ key), Hx | reflexivity].
Qed.

(** *** Values without a key [__proto__] *)

Lemma dropProto_fields (fields : gmap string JsValue) :
  dropProto (JObj fields)
  = JObj (map_imap (fun key x =>
            if String.eqb key protoKey then None else Some (dropProto x))
            fields).
Proof. reflexivity. Qed.

Lemma protoFree_field (fields : gmap string JsValue) (key : string)
  (x : JsValue) :
  protoFree (JObj fields) = true -> fields !! key = Some x ->
  protoFree x = true.
Proof.
  intros H Hx. cbn [protoFree] in H. apply andb_true_iff in H as [_ H].
  rewrite <- (insert_delete_id fields key x Hx) in H.
  rewrite map_fold_insert_L in H.
  - apply andb_true_iff in H. apply H.
  - intros j1 j2 z1 z2 y _ _ _.
    rewrite !andb_assoc, (andb_comm (protoFree z1)). reflexivity.
  - apply lookup_delete_eq.
Qed.

Lemma dropProto_protoFree (data : JsValue) :
  protoFree data = true -> dropProto data = data.
Proof.
  induction data as [| |b|n|s|items IH|fields IH] using JsValue_nested_ind;
    intros H; try reflexivity.
  - cbn [dropProto]. f_equal.
    rewrite <- (map_id items) at 2. apply map_ext_in. intros x Hx.
    apply IH; [exact Hx|].
    cbn [protoFree] in H. rewrite forallb_forall in H. apply H, Hx.
  - rewrite dropProto_fields. f_equal.
    apply map_eq. intros key. rewrite map_lookup_imap.
    destruct (fields !! key) as [x|] eqn:E; [|reflexivity].
    cbn. destruct (String.eqb_spec key protoKey) as [->|_].
    + cbn [protoFree] in H. apply andb_true_iff in H as [H _].
      apply bool_decide_eq_true in H. rewrite H in E. discriminate E.
    + f_equal. apply (IH key x E), (protoFree_field fields key x H E).
Qed.

Lemma formatEntry_twice (rtlFields : list string) (key : string)
  (x : JsValue) :
  formatJsonForTerminal Utils.formatForTerminal rtlFields
    (formatJsonForTerminal Utils.formatForTerminal rtlFields x)
  = dropProto x ->
  formatEntry Utils.formatForTerminal rtlFields key
    (formatEntry Utils.formatForTerminal rtlFields key x) = dropProto x.
Proof.
  intros IH.
  destruct x as [| |b|n|s|items|fields]; try reflexivity.
  - unfold formatEntry.
    destruct (bool_decide (key ∈ rtlFields)); cbv beta iota;
      [rewrite formatForTerminal_twice|]; reflexivity.
  - exact IH.
  - exact IH.
Qed.

Lemma formatJsonForTerminal_twice (rtlFields : list string)
  (data : JsValue) :
  formatJsonForTerminal Utils.formatForTerminal rtlFields
    (formatJsonForTerminal Utils.formatForTerminal rtlFields data)
  = dropProto data.
Proof.
  induction data as [| |b|n|s|items IH|fields IH] using JsValue_nested_ind;
    try (match goal with
         | |- formatJsonForTerminal _ _ (formatJsonForTerminal _ _ ?v) = _ =>
             rewrite !(formatJsonForTerminal_scalar _ _ v) by reflexivity;
             reflexivity
         end).
  - rewrite !formatJsonForTerminal_array, map_map. cbn [dropProto]. f_equal.
    apply map_ext_in. exact IH.
  - rewrite !formatJsonForTerminal_fields, dropProto_fields. f_equal.
    apply map_eq. intros key. rewrite !map_lookup_imap.
    destruct (fields !! key) as [x|] eqn:E; [|reflexivity].
    cbn. destruct (String.eqb key protoKey) eqn:K; [reflexivity|].
    cbn. f_equal. apply formatEntry_twice, (IH key x E).
Qed.

(** X2. With the code-unit [formatForTerminal], formatting a value twice
    gives the value back, whatever the field names, when no object in it
    owns the key [__proto__]; for any value it gives the value without those
    keys, which the first pass has dropped. *)
Theorem formatJsonForTerminal_involutive (rtlFields : list string)
  (data : JsValue) :
  formatJsonForTerminal Utils.formatForTerminal rtlFields
    (formatJsonForTerminal Utils.formatForTerminal rtlFields data)
  = dropProto data /\
  (protoFree data = true ->
   formatJsonForTerminal Utils.formatForTerminal rtlFields
     (formatJsonForTerminal Utils.formatForTerminal rtlFields data) = data).
Proof.
  split; [apply formatJsonForTerminal_twice|].
  intros H. rewrite formatJsonForTerminal_twice.
  apply dropProto_protoFree, H.
Qed.

(** A list of two tasks, the first with a Hebrew title. *)
Lemma formatJsonForTerminal_involutive_witness :
  protoFree (JArr [JObj {[ "title" := JStr [0x05E9; 0x05DC];
                           "id" := JStr [0x31] ]};
                   JObj {[ "title" := JStr [0x48; 0x69] ]}]) = true /\
  formatJsonForTerminal Utils.formatForTerminal rtlFields_default
    (formatJsonForTerminal Utils.formatForTerminal rtlFields_default
       (JArr [JObj {[ "title" := JStr [0x05E9; 0x05DC];
                      "id" := JStr [0x31] ]};
              JObj {[ "title" := JStr [0x48; 0x69] ]}]))
  = JArr [JObj {[ "title" := JStr [0x05E9; 0x05DC]; "id" := JStr [0x31] ]};
          JObj {[ "title" := JStr [0x48; 0x69] ]}].
Proof.
  assert (H : protoFree (JArr [JObj {[ "title" := JStr [0x05E9; 0x05DC];
                                       "id" := JStr [0x31] ]};
                               JObj {[ "title" := JStr [0x48; 0x69] ]}])
              = true) by (vm_compute; reflexivity).
  split; [exact H|].
  exact (proj2 (formatJsonForTerminal_involutive rtlFields_default _) H).
Defined.

(** ** The catalog *)

Lemma filter_sublist {A : Type} (f : A -> bool) (l : list A) :
  sublist (List.filter f l) l.
Proof.
  induction l as [|x l IH]; simpl; [constructor|].
  destruct (f x); [apply sublist_skip | apply sublist_cons]; exact IH.
Qed.

Lemma read_only_names (n : string) :
  has READ_ONLY_TOOLS n = true <->
  n = "list_task_lists" \/ n = "list_tasks" \/ n = "get_auth_url".
Proof.
  unfold has, READ_ONLY_TOOLS. rewrite bool_decide_eq_true.
  rewrite !elem_of_union, !elem_of_singleton. tauto.
Qed.

Lemma mutating_names (n : string) :
  has MUTATING_TOOLS n = true <->
  n = "create_task_list" \/ n = "create_task" \/ n = "update_task" \/
  n = "delete_task".
Proof.
  unfold has, MUTATING_TOOLS. rewrite bool_decide_eq_true.
  rewrite !elem_of_union, !elem_of_singleton. tauto.
Qed.

(** C7. Under the read-only policy [getAvailableTools] returns the
    descriptors of [TOOL_DEFINITIONS] whose names are in [READ_ONLY_TOOLS]:
    [list_task_lists], [list_tasks] and [get_auth_url], in catalog order,
    three of the seven; otherwise it returns the whole catalog. *)
Theorem getAvailableTools_catalog :
  map name (Http.getAvailableTools true)
    = ["list_task_lists"; "list_tasks"; "get_auth_url"] /\
  Http.getAvailableTools true
    = List.filter (fun tool => has READ_ONLY_TOOLS (name tool)) TOOL_DEFINITIONS /\
  sublist (Http.getAvailableTools true) TOOL_DEFINITIONS /\
  (length (Http.getAvailableTools true) < length TOOL_DEFINITIONS)%nat /\
  (forall tool,
     In tool (Http.getAvailableTools true) <->
     In tool TOOL_DEFINITIONS /\
     (name tool = "list_task_lists" \/ name tool = "list_tasks" \/
      name tool = "get_auth_url")) /\
  map name TOOL_DEFINITIONS
    = ["list_task_lists"; "create_task_list"; "list_tasks"; "create_task";
       "update_task"; "delete_task"; "get_auth_url"] /\
  Http.getAvailableTools false = TOOL_DEFINITIONS.
Proof.
  split; [vm_compute; reflexivity|].
  split; [reflexivity|].
  split; [apply filter_sublist|].
  split; [vm_compute; lia|].
  split; [|split; reflexivity].
  intros tool. unfold Http.getAvailableTools.
  rewrite filter_In, read_only_names. reflexivity.
Qed.

(** ** The dispatcher *)

Ltac run_async :=
  unfold initializeClient, getAuthClient, getAuthUrl, newGoogleTasksClient,
    api, tryCatch, throw, emit, callOut, readTasksClient, writeTasksClient,
    logged, mbind, mret, Async_bind, Async_ret;
  cbn.

Section DispatcherFacts.

Variable W : Collaborators.

Lemma initializeClient_cached (st : ServerState) (client : GoogleTasksClient) :
  tasksClient st = Some client ->
  initializeClient W st = (inr client, logged st [EvInitializeClient]).
Proof. intros H. run_async. rewrite H. reflexivity. Qed.

Lemma initializeClient_first (st : ServerState) :
  tasksClient st = None ->
  initializeClient W st =
  match loadToken W (log st ++ [EvInitializeClient]) with
  | None =>
      (inl (ThrownError
         "No valid token found. Please authenticate first using getAuthUrl() and authenticate()."),
       logged st [EvInitializeClient; EvGetAuthClient])
  | Some token =>
      let client :=
        mkGoogleTasksClient
          (count isNewClient (log st ++ [EvInitializeClient; EvGetAuthClient]))
          (mkOAuth2Client token) in
      (inr client,
       mkServerState (Some client)
         (log st ++ [EvInitializeClient; EvGetAuthClient;
                     EvNewGoogleTasksClient (mkOAuth2Client token)]))
  end.
Proof.
  intros H. run_async. rewrite H. cbn.
  destruct (loadToken W (log st ++ [EvInitializeClient])); cbn;
    rewrite <- ?app_assoc; reflexivity.
Qed.

Lemma dispatch_same (client : GoogleTasksClient) (n : string)
  (args : gmap string JsValue) :
  Http.dispatch W client n args = Stdio.dispatch W client n args.
Proof.
  unfold Http.dispatch, Stdio.dispatch.
  destruct (String.eqb_spec n "list_task_lists") as [->|]; [reflexivity|].
  destruct (String.eqb_spec n "list_tasks") as [->|]; [reflexivity|].
  reflexivity.
Qed.

Lemma callTool_http_as_stdio (READ_ONLY : bool) (request : CallToolRequest)
  (st : ServerState) :
  Http.callTool W READ_ONLY request st =
  if READ_ONLY && has MUTATING_TOOLS (params_name request)
  then (inl (ThrownMcpError
          (mkMcpError InvalidRequest
             (Http.readOnlyMessage (params_name request)))), st)
  else Stdio.callTool W request st.
Proof.
  unfold Http.callTool, Stdio.callTool.
  destruct (READ_ONLY && has MUTATING_TOOLS (params_name request));
    [reflexivity|].
  destruct (String.eqb (params_name request) "get_auth_url"); [reflexivity|].
  unfold tryCatch, mbind, Async_bind.
  destruct (initializeClient W st) as [[e|client] st']; [reflexivity|].
  rewrite dispatch_same. reflexivity.
Qed.

Lemma callTool_stdio_steps (request : CallToolRequest) (st : ServerState) :
  String.eqb (params_name request) "get_auth_url" = false ->
  Stdio.callTool W request st =
  match initializeClient W st with
  | (inl e, st') => (inl (rethrow e), st')
  | (inr client, st') =>
      match Stdio.dispatch W client (params_name request) (argsOf request) st'
      with
      | (inl e, st'') => (inl (rethrow e), st'')
      | (inr result, st'') => (inr result, st'')
      end
  end.
Proof.
  intros H. unfold Stdio.callTool. rewrite H.
  unfold tryCatch, mbind, Async_bind, throw.
  destruct (initializeClient W st) as [[e|client] st']; reflexivity.
Qed.

Lemma dispatch_action (client : GoogleTasksClient) (n : string)
  (args : gmap string JsValue) (call : ApiCall) (st : ServerState) :
  underlyingAction n args = Some call ->
  Stdio.dispatch W client n args st =
  (match tasksApi W (log st) client call with
   | inl e => inl e
   | inr value => inr (textResult (successText W n value))
   end,
   logged st [EvApi client call]).
Proof.
  unfold underlyingAction, Stdio.dispatch, successText.
  repeat match goal with
         | |- context [String.eqb n ?lit] =>
             destruct (String.eqb_spec n lit) as [->|]
         end;
    intros E; try discriminate; injection E as <-; run_async;
    match goal with
    | |- context [tasksApi W ?h ?c ?a] => destruct (tasksApi W h c a)
    end; reflexivity.
Qed.

Lemma action_not_auth_url (n : string) (args : gmap string JsValue)
  (call : ApiCall) :
  underlyingAction n args = Some call -> String.eqb n "get_auth_url" = false.
Proof.
  intros H. destruct (String.eqb_spec n "get_auth_url") as [->|];
    [discriminate H | reflexivity].
Qed.

Lemma unknown_name_tests (n : string) :
  ~ In n registeredNames ->
  String.eqb n "get_auth_url" = false /\
  has MUTATING_TOOLS n = false /\
  underlyingAction n ∅ = None.
Proof.
  intros H. cbn in H.
  split; [|split].
  - destruct (String.eqb_spec n "get_auth_url");
      [exfalso; intuition congruence | reflexivity].
  - destruct (has MUTATING_TOOLS n) eqn:E; [|reflexivity].
    apply mutating_names in E. exfalso. intuition congruence.
  - unfold underlyingAction.
    repeat match goal with
           | |- context [String.eqb n ?lit] =>
               destruct (String.eqb_spec n lit);
                 [exfalso; intuition congruence|]
           end.
    reflexivity.
Qed.

Lemma dispatch_unknown (client : GoogleTasksClient) (n : string)
  (args : gmap string JsValue) (st : ServerState) :
  ~ In n registeredNames ->
  Stdio.dispatch W client n args st =
  (inl (ThrownMcpError (mkMcpError MethodNotFound ("Unknown tool: " +:+ n))),
   st).
Proof.
  intros H. cbn in H. unfold Stdio.dispatch.
  repeat match goal with
         | |- context [String.eqb n ?lit] =>
             destruct (String.eqb_spec n lit);
               [exfalso; intuition congruence|]
         end.
  reflexivity.
Qed.

Lemma count_app (p : Event -> bool) (l l' : list Event) :
  count p (l ++ l') = (count p l + count p l')%nat.
Proof. unfold count. rewrite List.filter_app, length_app. reflexivity. Qed.

Lemma initializeClient_counts (st : ServerState) :
  count isInitializeClient (log (initializeClient W st).2)
  = S (count isInitializeClient (log st)) /\
  (tasksClient st = None ->
   count isGetAuthClient (log (initializeClient W st).2)
   = S (count isGetAuthClient (log st))) /\
  (forall client, tasksClient st = Some client ->
   count isGetAuthClient (log (initializeClient W st).2)
   = count isGetAuthClient (log st)).
Proof.
  destruct (tasksClient st) as [client|] eqn:E.
  - rewrite (initializeClient_cached st client E). unfold logged.
    cbn [snd log]. rewrite !count_app. cbn. split; [lia|]. split; [discriminate|].
    intros _ _. lia.
  - rewrite (initializeClient_first st E).
    destruct (loadToken W (log st ++ [EvInitializeClient]));
      unfold logged; cbn [snd log]; rewrite !count_app; cbn; (split; [lia|]); (split; [intros _; lia|]);
      discriminate.
Qed.

End DispatcherFacts.

(** ** The claims about the dispatcher *)

(** C2. Under the read-only policy the HTTP handler answers a call of
    [create_task_list], [create_task], [update_task] or [delete_task] with an
    [McpError] of code [InvalidRequest] whose message names the tool and says
    that it is not available in read-only mode; the server state and the log
    are as before, so neither [initializeClient] nor [getAuthClient] ran. *)
Theorem callTool_read_only_denies_mutating
  (W : Collaborators) (request : CallToolRequest) (st : ServerState) :
  In (params_name request)
     ["create_task_list"; "create_task"; "update_task"; "delete_task"] ->
  has MUTATING_TOOLS (params_name request) = true /\
  Http.callTool W true request st
    = (inl (ThrownMcpError
        (mkMcpError InvalidRequest
           ("Tool '" +:+ params_name request +:+
            "' is not available in read-only mode. Set READ_ONLY=false to enable write operations."))),
       st) /\
  count isInitializeClient (log (Http.callTool W true request st).2)
    = count isInitializeClient (log st) /\
  count isGetAuthClient (log (Http.callTool W true request st).2)
    = count isGetAuthClient (log st).
Proof.
  intros Hin.
  assert (Hm : has MUTATING_TOOLS (params_name request) = true).
  { apply mutating_names. cbn in Hin. intuition congruence. }
  assert (E : Http.callTool W true request st
              = (inl (readOnlyDenial (params_name request)), st)).
  { rewrite callTool_http_as_stdio, Hm. reflexivity. }
  split; [exact Hm|]. split; [exact E|]. rewrite E. split; reflexivity.
Qed.

Lemma callTool_read_only_denies_mutating_witness :
  In "create_task"
     ["create_task_list"; "create_task"; "update_task"; "delete_task"] /\
  Http.callTool sampleWorld true createTaskWithoutTitle freshServer
    = (inl (readOnlyDenial "create_task"), freshServer) /\
  count isGetAuthClient
    (log (Http.callTool sampleWorld true createTaskWithoutTitle freshServer).2)
    = 0%nat.
Proof.
  assert (Hin : In (params_name createTaskWithoutTitle)
            ["create_task_list"; "create_task"; "update_task"; "delete_task"])
    by (cbn; tauto).
  split; [exact Hin|].
  destruct (callTool_read_only_denies_mutating sampleWorld
              createTaskWithoutTitle freshServer Hin) as (_ & E & _ & G).
  split; [exact E | exact G].
Defined.



(** C4, as stated, fails.  [title] is required by the schema of
    [create_task] and [taskListId] by that of [list_tasks]; a request without
    the field is not refused: the client method is called with [undefined]
    in its place and the handler answers with the method's result. *)
Lemma missing_required_field_reaches_action :
  In "title" (requiredFields "create_task") /\
  argsOf createTaskWithoutTitle !! "title" = None /\
  Stdio.callTool sampleWorld createTaskWithoutTitle freshServer
    = (inr (textResult "null"),
       mkServerState (Some firstClient)
         [EvInitializeClient; EvGetAuthClient;
          EvNewGoogleTasksClient (mkOAuth2Client 7%nat);
          EvApi firstClient
            (createTask (JStr [0x4C]) JUndefined JUndefined JUndefined)]) /\
  Http.callTool sampleWorld false createTaskWithoutTitle freshServer
    = Stdio.callTool sampleWorld createTaskWithoutTitle freshServer /\
  In "taskListId" (requiredFields "list_tasks") /\
  argsOf listTasksWithoutList !! "taskListId" = None /\
  Http.callTool sampleWorld true listTasksWithoutList freshServer
    = (inr (textResult "null"),
       mkServerState (Some firstClient)
         [EvInitializeClient; EvGetAuthClient;
          EvNewGoogleTasksClient (mkOAuth2Client 7%nat);
          EvApi firstClient (listTasks JUndefined JUndefined)]).
Proof. repeat split; vm_compute; tauto. Qed.

(** C4, amended.  The handlers check no required field.  A request that
    names one of the six tools backed by a client method is handled the same
    way whatever its arguments.  The HTTP handler under the read-only policy
    denies it when the tool is a mutating one; otherwise it is handled as by
    the stdio handler.  That one calls [initializeClient]; when this fails,
    the failure is the answer, through the [catch] block, and no client
    method is called; when it gives a client, the method is called on it with
    each argument as read from the request, an absent one as [undefined], and
    the answer is the method's result, or its failure through the [catch]
    block.  No failure for invalid arguments arises in the handler. *)
Theorem callTool_calls_action_unvalidated
  (W : Collaborators) (request : CallToolRequest) (call : ApiCall)
  (st : ServerState) :
  underlyingAction (params_name request) (argsOf request) = Some call ->
  Stdio.callTool W request st =
    match initializeClient W st with
    | (inl e, st') => (inl (rethrow e), st')
    | (inr client, st') =>
        (match tasksApi W (log st') client call with
         | inl e => inl (rethrow e)
         | inr value =>
             inr (textResult (successText W (params_name request) value))
         end,
         logged st' [EvApi client call])
    end /\
  (forall READ_ONLY,
     Http.callTool W READ_ONLY request st =
     if READ_ONLY && has MUTATING_TOOLS (params_name request)
     then (inl (readOnlyDenial (params_name request)), st)
     else Stdio.callTool W request st) /\
  count isApi (log (Stdio.callTool W request st).2)
    = (count isApi (log st)
       + match (initializeClient W st).1 with inl _ => 0 | inr _ => 1 end)%nat /\
  (forall key,
     argsOf request !! key = None -> prop (argsOf request) key = JUndefined) /\
  (forall args,
     underlyingAction "create_task" args
     = Some (createTask (prop args "taskListId") (prop args "title")
               (prop args "notes") (prop args "due"))) /\
  (forall args,
     underlyingAction "list_tasks" args
     = Some (listTasks (prop args "taskListId") (prop args "showCompleted"))).
Proof.
  intros H.
  assert (E : Stdio.callTool W request st =
    match initializeClient W st with
    | (inl e, st') => (inl (rethrow e), st')
    | (inr client, st') =>
        (match tasksApi W (log st') client call with
         | inl e => inl (rethrow e)
         | inr value =>
             inr (textResult (successText W (params_name request) value))
         end,
         logged st' [EvApi client call])
    end).
  { rewrite callTool_stdio_steps by (eapply action_not_auth_url; exact H).
    destruct (initializeClient W st) as [[e|client] st']; [reflexivity|].
    rewrite (dispatch_action W client _ _ call st' H).
    destruct (tasksApi W (log st') client call); reflexivity. }
  split; [exact E|]. split; [|split; [|split; [|split; reflexivity]]].
  - intros READ_ONLY. apply callTool_http_as_stdio.
  - rewrite E.
    assert (N : count isApi (log (initializeClient W st).2)
                = count isApi (log st)).
    { destruct (tasksClient st) as [client|] eqn:C.
      - rewrite (initializeClient_cached W st client C). unfold logged.
        cbn [snd log]. rewrite count_app. cbn. lia.
      - rewrite (initializeClient_first W st C).
        destruct (loadToken W (log st ++ [EvInitializeClient]));
          unfold logged; cbn [snd log]; rewrite count_app; cbn; lia. }
    destruct (initializeClient W st) as [[e|client] st']; cbn [fst snd] in *.
    + lia.
    + unfold logged. cbn [log]. rewrite count_app, N. cbn. lia.
  - intros key Hkey. unfold prop. rewrite Hkey. reflexivity.
Qed.

(** [create_task] without [title]: the method is called when a token is on
    disk, and is not when there is none or when the policy denies the call. *)
Lemma callTool_calls_action_unvalidated_witness :
  underlyingAction (params_name createTaskWithoutTitle)
    (argsOf createTaskWithoutTitle)
    = Some (createTask (JStr [0x4C]) JUndefined JUndefined JUndefined) /\
  Stdio.callTool sampleWorld createTaskWithoutTitle freshServer
    = (inr (textResult "null"),
       mkServerState (Some firstClient)
         [EvInitializeClient; EvGetAuthClient;
          EvNewGoogleTasksClient (mkOAuth2Client 7%nat);
          EvApi firstClient
            (createTask (JStr [0x4C]) JUndefined JUndefined JUndefined)]) /\
  count isApi
    (log (Stdio.callTool noTokenWorld createTaskWithoutTitle freshServer).2)
    = 0%nat /\
  Http.callTool sampleWorld true createTaskWithoutTitle freshServer
    = (inl (readOnlyDenial "create_task"), freshServer).
Proof.
  assert (H : underlyingAction (params_name createTaskWithoutTitle)
                (argsOf createTaskWithoutTitle)
              = Some (createTask (JStr [0x4C]) JUndefined JUndefined JUndefined))
    by (vm_compute; reflexivity).
  split; [exact H|].
  destruct (callTool_calls_action_unvalidated sampleWorld
              createTaskWithoutTitle _ freshServer H) as (E & P & _).
  destruct (callTool_calls_action_unvalidated noTokenWorld
              createTaskWithoutTitle _ freshServer H) as (_ & _ & N & _).
  split; [rewrite E; vm_compute; reflexivity|].
  split; [rewrite N; vm_compute; reflexivity|].
  rewrite (P true). vm_compute. reflexivity.
Defined.

(** C5, as stated, fails for a name outside the catalog.  Both handlers call
    [initializeClient], and through it [getAuthClient], before the [switch]
    finds the name unknown; without a token the failure reported is the
    provider's, not the unknown-tool one. *)
Lemma unknown_tool_reaches_provider :
  ~ In (params_name unknownToolRequest) registeredNames /\
  Stdio.callTool noTokenWorld unknownToolRequest freshServer
    = (inl (ThrownMcpError
         (mkMcpError InternalError
            "Error executing tool: No valid token found. Please authenticate first using getAuthUrl() and authenticate().")),
       mkServerState None [EvInitializeClient; EvGetAuthClient]) /\
  Http.callTool noTokenWorld true unknownToolRequest freshServer
    = Stdio.callTool noTokenWorld unknownToolRequest freshServer /\
  Stdio.callTool sampleWorld unknownToolRequest freshServer
    = (inl (unknownTool "no_such_tool"),
       mkServerState (Some firstClient)
         [EvInitializeClient; EvGetAuthClient;
          EvNewGoogleTasksClient (mkOAuth2Client 7%nat)]) /\
  count isGetAuthClient
    (log (Http.callTool sampleWorld true unknownToolRequest freshServer).2)
    = 1%nat.
Proof.
  split.
  - cbn. intros H. repeat destruct H as [H|H]; try discriminate H. exact H.
  - repeat split; vm_compute; reflexivity.
Qed.

(** C5, amended.  A call denied by the read-only policy fails in the HTTP
    handler before anything else runs: the state and the log are as before.
    A call of a name outside the catalog first runs [initializeClient] in
    both handlers, which calls [getAuthClient] when no client is cached; the
    unknown-tool failure ([MethodNotFound]) is the answer when that succeeds,
    and the provider's failure, through the [catch] block, when it does not. *)
Theorem denied_locally_unknown_after_provider (W : Collaborators) :
  (forall request st,
     has MUTATING_TOOLS (params_name request) = true ->
     Http.callTool W true request st
     = (inl (readOnlyDenial (params_name request)), st)) /\
  (forall request st,
     ~ In (params_name request) registeredNames ->
     Stdio.callTool W request st =
       match initializeClient W st with
       | (inl e, st') => (inl (rethrow e), st')
       | (inr _, st') => (inl (unknownTool (params_name request)), st')
       end /\
     (forall READ_ONLY,
        Http.callTool W READ_ONLY request st = Stdio.callTool W request st) /\
     count isInitializeClient (log (Stdio.callTool W request st).2)
       = S (count isInitializeClient (log st)) /\
     (tasksClient st = None ->
      count isGetAuthClient (log (Stdio.callTool W request st).2)
        = S (count isGetAuthClient (log st)))).
Proof.
  split.
  - intros request st H. rewrite callTool_http_as_stdio, H. reflexivity.
  - intros request st H.
    destruct (unknown_name_tests _ H) as (Hauth & Hmut & _).
    assert (E : Stdio.callTool W request st =
              match initializeClient W st with
              | (inl e, st') => (inl (rethrow e), st')
              | (inr _, st') => (inl (unknownTool (params_name request)), st')
              end).
    { rewrite (callTool_stdio_steps W request st Hauth).
      destruct (initializeClient W st) as [[e|client] st']; [reflexivity|].
      rewrite (dispatch_unknown W client _ _ st' H). reflexivity. }
    split; [exact E|]. split.
    { intros READ_ONLY. rewrite callTool_http_as_stdio, Hmut.
      rewrite andb_false_r. reflexivity. }
    destruct (initializeClient_counts W st) as (C1 & C2 & _).
    rewrite E.
    destruct (initializeClient W st) as [[e|client] st']; cbn [snd] in *;
      split; assumption.
Qed.

Lemma denied_locally_unknown_after_provider_witness :
  has MUTATING_TOOLS (params_name createTaskWithoutTitle) = true /\
  Http.callTool sampleWorld true createTaskWithoutTitle freshServer
    = (inl (readOnlyDenial "create_task"), freshServer) /\
  ~ In (params_name unknownToolRequest) registeredNames /\
  tasksClient freshServer = None /\
  count isGetAuthClient
    (log (Stdio.callTool sampleWorld unknownToolRequest freshServer).2)
    = 1%nat.
Proof.
  assert (Hm : has MUTATING_TOOLS (params_name createTaskWithoutTitle) = true)
    by (vm_compute; reflexivity).
  assert (Hu : ~ In (params_name unknownToolRequest) registeredNames).
  { cbn. intros H. repeat destruct H as [H|H]; try discriminate H. exact H. }
  destruct (denied_locally_unknown_after_provider sampleWorld) as [D U].
  destruct (U unknownToolRequest freshServer Hu) as (_ & _ & _ & G).
  split; [exact Hm|]. split; [exact (D createTaskWithoutTitle freshServer Hm)|].
  split; [exact Hu|]. split; [reflexivity|]. exact (G eq_refl).
Defined.

(** X3. [get_auth_url] needs no client: in both servers, whatever the policy
    and the arguments, the handler answers with the authorization URL and
    calls nothing but [getAuthUrl]. *)
Theorem callTool_get_auth_url (W : Collaborators)
  (args : option (gmap string JsValue)) (st : ServerState) :
  Stdio.callTool W (mkRequest "get_auth_url" args) st
    = (inr (textResult (authUrlText (generateAuthUrl W))),
       logged st [EvGetAuthUrl]) /\
  forall READ_ONLY,
    Http.callTool W READ_ONLY (mkRequest "get_auth_url" args) st
    = (inr (textResult (authUrlText (generateAuthUrl W))),
       logged st [EvGetAuthUrl]).
Proof.
  assert (E : Stdio.callTool W (mkRequest "get_auth_url" args) st
              = (inr (textResult (authUrlText (generateAuthUrl W))),
                 logged st [EvGetAuthUrl])) by reflexivity.
  split; [exact E|]. intros READ_ONLY.
  rewrite callTool_http_as_stdio.
  replace (has MUTATING_TOOLS (params_name (mkRequest "get_auth_url" args)))
    with false by (vm_compute; reflexivity).
  rewrite andb_false_r. exact E.
Qed.


(** ** The cached client *)

(** A call that is never interrupted is the sequential [initializeClient]. *)
Lemma resume_uninterrupted (W : Collaborators) (st : ServerState) :
  resume W (resume W AtEntry st).1 (resume W AtEntry st).2
  = (Returned (initializeClient W st).1, (initializeClient W st).2).
Proof.
  unfold resume at 2 3. run_async.
  destruct (tasksClient st) as [client|] eqn:E; cbn; [reflexivity|].
  destruct (loadToken W (log st ++ [EvInitializeClient])); reflexivity.
Qed.

(** Once a client is cached, calls that follow one another all return it,
    and neither [getAuthClient] nor the constructor runs again. *)
Lemma initializeClientTimes_cached (W : Collaborators) (k : nat)
  (st : ServerState) (client : GoogleTasksClient) :
  tasksClient st = Some client ->
  initializeClientTimes W k st
  = (repeat (inr client) k, logged st (repeat EvInitializeClient k)).
Proof.
  revert st. induction k as [|k IH]; intros st H; cbn [initializeClientTimes].
  - unfold logged. rewrite app_nil_r. destruct st; reflexivity.
  - rewrite (initializeClient_cached W st client H).
    rewrite IH by exact H. unfold logged. cbn.
    rewrite <- app_assoc. reflexivity.
Qed.

Lemma count_repeat_initializeClient (p : Event -> bool) (k : nat) :
  p EvInitializeClient = false -> count p (repeat EvInitializeClient k) = 0%nat.
Proof.
  intros H. unfold count. induction k as [|k IH]; cbn; [reflexivity|].
  rewrite H. exact IH.
Qed.

(** X1. Calls that follow one another construct the client once: with a token on
    disk, [k + 1] calls on a new server all return the client made by the
    first, after one [getAuthClient] and one construction. *)
Theorem initializeClient_sequential_singleton (W : Collaborators) (k : nat)
  (token : Token) :
  loadToken W [EvInitializeClient] = Some token ->
  let client := mkGoogleTasksClient 0 (mkOAuth2Client token) in
  (initializeClientTimes W (S k) freshServer).1 = repeat (inr client) (S k) /\
  tasksClient (initializeClientTimes W (S k) freshServer).2 = Some client /\
  count isGetAuthClient (log (initializeClientTimes W (S k) freshServer).2)
    = 1%nat /\
  count isNewClient (log (initializeClientTimes W (S k) freshServer).2)
    = 1%nat.
Proof.
  intros H client.
  assert (E : initializeClient W freshServer
              = (inr client,
                 mkServerState (Some client)
                   [EvInitializeClient; EvGetAuthClient;
                    EvNewGoogleTasksClient (mkOAuth2Client token)])).
  { rewrite (initializeClient_first W freshServer eq_refl).
    cbn. rewrite H. reflexivity. }
  cbn [initializeClientTimes]. rewrite E.
  rewrite (initializeClientTimes_cached W k
             (mkServerState (Some client)
                [EvInitializeClient; EvGetAuthClient;
                 EvNewGoogleTasksClient (mkOAuth2Client token)])
             client eq_refl).
  unfold logged. cbn [fst snd tasksClient log].
  rewrite !count_app, !count_repeat_initializeClient by reflexivity.
  repeat split.
Qed.

Lemma initializeClient_sequential_singleton_witness :
  loadToken sampleWorld [EvInitializeClient] = Some 7%nat /\
  (initializeClientTimes sampleWorld 3 freshServer).1
    = [inr firstClient; inr firstClient; inr firstClient] /\
  count isNewClient (log (initializeClientTimes sampleWorld 3 freshServer).2)
    = 1%nat.
Proof.
  split; [reflexivity|].
  destruct (initializeClient_sequential_singleton sampleWorld 2 7%nat eq_refl)
    as (R & _ & _ & N).
  split; [exact R | exact N].
Defined.

(** C6 fails on the code.  Two first calls of [initializeClient] in flight
    together on a new server: each finds [tasksClient] empty before the
    other has stored its client, so [getAuthClient] runs twice, two clients
    are constructed, and the two calls return different handles.  The same
    two calls one after the other construct one client. *)
Theorem initializeClient_concurrent_constructs_twice :
  runSchedule sampleWorld [0; 1; 0; 1]%nat ([AtEntry; AtEntry], freshServer)
    = ([Returned (inr firstClient); Returned (inr secondClient)],
       mkServerState (Some secondClient)
         [EvInitializeClient; EvGetAuthClient;
          EvInitializeClient; EvGetAuthClient;
          EvNewGoogleTasksClient (mkOAuth2Client 7%nat);
          EvNewGoogleTasksClient (mkOAuth2Client 7%nat)]) /\
  count isGetAuthClient
    (log (runSchedule sampleWorld [0; 1; 0; 1]%nat
            ([AtEntry; AtEntry], freshServer)).2) = 2%nat /\
  count isNewClient
    (log (runSchedule sampleWorld [0; 1; 0; 1]%nat
            ([AtEntry; AtEntry], freshServer)).2) = 2%nat /\
  firstClient <> secondClient /\
  runSchedule sampleWorld [0; 0; 1; 1]%nat ([AtEntry; AtEntry], freshServer)
    = ([Returned (inr firstClient); Returned (inr firstClient)],
       mkServerState (Some firstClient)
         [EvInitializeClient; EvGetAuthClient;
          EvNewGoogleTasksClient (mkOAuth2Client 7%nat);
          EvInitializeClient]).
Proof.
  split; [vm_compute; reflexivity|].
  split; [vm_compute; reflexivity|].
  split; [vm_compute; reflexivity|].
  split; [discriminate|].
  vm_compute. reflexivity.
Qed.

(** ** More on the dispatcher *)

Section DispatcherNormalForm.

Variable W : Collaborators.

Lemma dispatch_no_action (client : GoogleTasksClient) (n : string)
  (args : gmap string JsValue) (st : ServerState) :
  underlyingAction n args = None ->
  Stdio.dispatch W client n args st = (inl (unknownTool n), st).
Proof.
  unfold underlyingAction, Stdio.dispatch.
  repeat match goal with
         | |- context [String.eqb n ?lit] =>
             destruct (String.eqb_spec n lit) as [->|]
         end;
    intros E; try discriminate E; reflexivity.
Qed.

(** The stdio handler in one equation. *)
Lemma callTool_stdio_normal (request : CallToolRequest) (st : ServerState) :
  Stdio.callTool W request st =
  if String.eqb (params_name request) "get_auth_url"
  then (inr (textResult (authUrlText (generateAuthUrl W))),
        logged st [EvGetAuthUrl])
  else
    match initializeClient W st with
    | (inl e, st1) => (inl (rethrow e), st1)
    | (inr client, st1) =>
        match underlyingAction (params_name request) (argsOf request) with
        | Some call =>
            (match tasksApi W (log st1) client call with
             | inl e => inl (rethrow e)
             | inr value =>
                 inr (textResult (successText W (params_name request) value))
             end,
             logged st1 [EvApi client call])
        | None => (inl (unknownTool (params_name request)), st1)
        end
    end.
Proof.
  destruct (String.eqb (params_name request) "get_auth_url") eqn:E.
  - unfold Stdio.callTool. rewrite E. reflexivity.
  - rewrite (callTool_stdio_steps W request st E).
    destruct (initializeClient W st) as [[e|client] st1]; [reflexivity|].
    destruct (underlyingAction (params_name request) (argsOf request))
      as [call|] eqn:A.
    + rewrite (dispatch_action W client _ _ call st1 A).
      destruct (tasksApi W (log st1) client call); reflexivity.
    + rewrite (dispatch_no_action client _ _ st1 A). reflexivity.
Qed.

Lemma action_mutating (n : string) (args : gmap string JsValue)
  (call : ApiCall) :
  underlyingAction n args = Some call ->
  isMutatingCall call = has MUTATING_TOOLS n.
Proof.
  unfold underlyingAction.
  repeat match goal with
         | |- context [String.eqb n ?lit] =>
             destruct (String.eqb_spec n lit) as [->|]
         end;
    intros E; try discriminate E; injection E as <-; vm_compute; reflexivity.
Qed.

End DispatcherNormalForm.

Section DispatcherInvariants.

Variable W : Collaborators.

Lemma initializeClient_no_mutation (st : ServerState) :
  count isMutatingEvent (log (initializeClient W st).2)
  = count isMutatingEvent (log st).
Proof.
  destruct (tasksClient st) as [client|] eqn:E.
  - rewrite (initializeClient_cached W st client E). unfold logged.
    cbn [snd log]. rewrite count_app. cbn. lia.
  - rewrite (initializeClient_first W st E).
    destruct (loadToken W (log st ++ [EvInitializeClient]));
      unfold logged; cbn [snd log]; rewrite count_app; cbn; lia.
Qed.

Lemma callTool_read_only_no_mutation (request : CallToolRequest)
  (st : ServerState) :
  count isMutatingEvent (log (Http.callTool W true request st).2)
  = count isMutatingEvent (log st).
Proof.
  rewrite callTool_http_as_stdio. cbn [andb].
  destruct (has MUTATING_TOOLS (params_name request)) eqn:M; [reflexivity|].
  rewrite callTool_stdio_normal.
  destruct (String.eqb (params_name request) "get_auth_url").
  { unfold logged. cbn [snd log]. rewrite count_app. cbn. lia. }
  pose proof (initializeClient_no_mutation st) as N.
  destruct (initializeClient W st) as [[e|client] st1]; cbn [snd] in *;
    [exact N|].
  destruct (underlyingAction (params_name request) (argsOf request))
    as [call|] eqn:A; [|exact N].
  unfold logged. cbn [snd log]. rewrite count_app, N.
  unfold count at 2. cbn [List.filter isMutatingEvent].
  rewrite (action_mutating _ _ call A), M. cbn. lia.
Qed.

Lemma callTool_stdio_cached (request : CallToolRequest) (st : ServerState)
  (client : GoogleTasksClient) :
  tasksClient st = Some client ->
  exists events,
    (Stdio.callTool W request st).2
      = mkServerState (Some client) (log st ++ events) /\
    forallb (usesOnly client) events = true.
Proof.
  intros H. rewrite callTool_stdio_normal.
  destruct (String.eqb (params_name request) "get_auth_url").
  { exists [EvGetAuthUrl]. unfold logged. rewrite H. split; reflexivity. }
  rewrite (initializeClient_cached W st client H).
  destruct (underlyingAction (params_name request) (argsOf request))
    as [call|].
  - exists [EvInitializeClient; EvApi client call].
    unfold logged. cbn [snd log tasksClient]. rewrite H, <- app_assoc.
    split; [reflexivity|]. cbn. rewrite bool_decide_eq_true_2; reflexivity.
  - exists [EvInitializeClient]. unfold logged. cbn [snd]. rewrite H.
    split; reflexivity.
Qed.

Lemma callTool_http_cached (READ_ONLY : bool) (request : CallToolRequest)
  (st : ServerState) (client : GoogleTasksClient) :
  tasksClient st = Some client ->
  exists events,
    (Http.callTool W READ_ONLY request st).2
      = mkServerState (Some client) (log st ++ events) /\
    forallb (usesOnly client) events = true.
Proof.
  intros H. rewrite callTool_http_as_stdio.
  destruct (READ_ONLY && has MUTATING_TOOLS (params_name request)).
  - exists []. rewrite app_nil_r. cbn [snd]. rewrite <- H.
    destruct st; split; reflexivity.
  - apply callTool_stdio_cached, H.
Qed.

Lemma serveAll_cached (handler : CallToolRequest -> Async CallToolResult)
  (client : GoogleTasksClient) :
  (forall request st,
     tasksClient st = Some client ->
     exists events,
       (handler request st).2 = mkServerState (Some client) (log st ++ events) /\
       forallb (usesOnly client) events = true) ->
  forall requests st,
    tasksClient st = Some client ->
    exists events,
      (serveAll handler requests st).2
        = mkServerState (Some client) (log st ++ events) /\
      forallb (usesOnly client) events = true.
Proof.
  intros Hh requests.
  induction requests as [|request rest IH]; intros st H; cbn [serveAll].
  - exists []. rewrite app_nil_r. cbn [snd]. rewrite <- H.
    destruct st; split; reflexivity.
  - destruct (Hh request st H) as (ev1 & E1 & F1).
    destruct (handler request st) as [answer st1]. cbn [snd] in E1. subst st1.
    destruct (IH (mkServerState (Some client) (log st ++ ev1)) eq_refl)
      as (ev2 & E2 & F2).
    destruct (serveAll handler rest _) as [answers st2].
    cbn [snd log] in *. subst st2.
    exists (ev1 ++ ev2). rewrite app_assoc, forallb_app, F1, F2.
    split; reflexivity.
Qed.

Lemma usesOnly_counts (client : GoogleTasksClient) (events : list Event) :
  forallb (usesOnly client) events = true ->
  count isGetAuthClient events = 0%nat /\ count isNewClient events = 0%nat.
Proof.
  unfold count. induction events as [|e events IH]; cbn; [split; reflexivity|].
  intros H. apply andb_true_iff in H as [He H]. specialize (IH H).
  destruct e; cbn in *; try discriminate He; exact IH.
Qed.

End DispatcherInvariants.

(** X5. Under the read-only policy, however many requests the HTTP server
    handles one after the other and whatever they ask for, no client method
    that changes data ([createTaskList], [createTask], [updateTask],
    [deleteTask]) is ever called. *)
Theorem read_only_server_never_mutates (W : Collaborators)
  (requests : list CallToolRequest) (st : ServerState) :
  count isMutatingEvent (log (serveAll (Http.callTool W true) requests st).2)
  = count isMutatingEvent (log st).
Proof.
  revert st. induction requests as [|request rest IH]; intros st;
    cbn [serveAll]; [reflexivity|].
  pose proof (callTool_read_only_no_mutation W request st) as H1.
  destruct (Http.callTool W true request st) as [answer st1].
  specialize (IH st1).
  destruct (serveAll (Http.callTool W true) rest st1) as [answers st2].
  cbn [snd] in *. congruence.
Qed.

Lemma stepPool_cached (W : Collaborators) (client : GoogleTasksClient)
  (tasks : list InitTask) (st : ServerState) (i : nat) :
  tasksClient st = Some client ->
  Forall (entersAfter client) tasks ->
  exists k,
    (stepPool W (tasks, st) i).2 = logged st (repeat EvInitializeClient k) /\
    Forall (entersAfter client) (stepPool W (tasks, st) i).1.
Proof.
  intros H F. unfold stepPool. cbn [fst snd].
  destruct (tasks !! i) as [t|] eqn:E.
  - pose proof (proj1 (Forall_lookup _ _) F i t E) as [-> | ->].
    + exists 1%nat. unfold resume. run_async. rewrite H. cbn.
      split; [reflexivity|]. apply Forall_insert; [exact F|].
      right. reflexivity.
    + exists 0%nat. cbn. unfold logged. rewrite app_nil_r.
      split; [destruct st; reflexivity|].
      apply Forall_insert; [exact F|]. right. reflexivity.
  - exists 0%nat. cbn. unfold logged. rewrite app_nil_r.
    split; [destruct st; reflexivity | exact F].
Qed.

Lemma runSchedule_cached (W : Collaborators) (client : GoogleTasksClient)
  (schedule : list nat) :
  forall (tasks : list InitTask) (st : ServerState),
    tasksClient st = Some client ->
    Forall (entersAfter client) tasks ->
    exists k,
      (runSchedule W schedule (tasks, st)).2
        = logged st (repeat EvInitializeClient k) /\
      Forall (entersAfter client) (runSchedule W schedule (tasks, st)).1.
Proof.
  induction schedule as [|i rest IH]; intros tasks st H F.
  - exists 0%nat. cbn. unfold logged. rewrite app_nil_r.
    split; [destruct st; reflexivity | exact F].
  - destruct (stepPool_cached W client tasks st i H F) as (k1 & E1 & F1).
    unfold runSchedule. cbn [fold_left].
    destruct (stepPool W (tasks, st) i) as [tasks1 st1].
    cbn [fst snd] in E1, F1. subst st1.
    destruct (IH tasks1 (logged st (repeat EvInitializeClient k1)) H F1)
      as (k2 & E2 & F2).
    exists (k1 + k2)%nat. unfold runSchedule in E2, F2.
    split; [|exact F2].
    rewrite E2. unfold logged. cbn [tasksClient log].
    rewrite repeat_app, app_assoc. reflexivity.
Qed.

(** X6. Once a client is cached, requests served one after the other, each
    to its end before the next begins and with no earlier call still
    suspended inside [initializeClient], leave it in place in either server,
    call the client methods on that client only, and call neither
    [getAuthClient] nor the constructor again.  The same holds for calls of
    [initializeClient] that interleave in any order, provided each of them
    enters after the client is cached.  A call suspended at its [await]
    since before that is not covered: when it resumes it constructs another
    client and stores it over the cached one. *)
Theorem serveAll_keeps_cached_client (W : Collaborators) (READ_ONLY : bool)
  (requests : list CallToolRequest) (st : ServerState)
  (client : GoogleTasksClient) :
  tasksClient st = Some client ->
  (exists events,
     (serveAll (Stdio.callTool W) requests st).2
       = mkServerState (Some client) (log st ++ events) /\
     forallb (usesOnly client) events = true /\
     count isGetAuthClient events = 0%nat /\
     count isNewClient events = 0%nat) /\
  (exists events,
     (serveAll (Http.callTool W READ_ONLY) requests st).2
       = mkServerState (Some client) (log st ++ events) /\
     forallb (usesOnly client) events = true /\
     count isGetAuthClient events = 0%nat /\
     count isNewClient events = 0%nat) /\
  (forall (tasks : list InitTask) (schedule : list nat),
     Forall (entersAfter client) tasks ->
     exists k,
       (runSchedule W schedule (tasks, st)).2
         = mkServerState (Some client)
             (log st ++ repeat EvInitializeClient k) /\
       Forall (entersAfter client) (runSchedule W schedule (tasks, st)).1) /\
  (forall authClient : OAuth2Client,
     runSchedule W [0%nat] ([AtAwait (inr authClient)], st)
     = ([Returned
           (inr (mkGoogleTasksClient (count isNewClient (log st)) authClient))],
        mkServerState
          (Some (mkGoogleTasksClient (count isNewClient (log st)) authClient))
          (log st ++ [EvNewGoogleTasksClient authClient]))).
Proof.
  intros H. split; [|split; [|split]].
  - destruct (serveAll_cached (Stdio.callTool W) client
                (fun request st => callTool_stdio_cached W request st client)
                requests st H) as (events & E & F).
    exists events. split; [exact E|]. split; [exact F|].
    apply (usesOnly_counts client), F.
  - destruct (serveAll_cached (Http.callTool W READ_ONLY) client
                (fun request st =>
                   callTool_http_cached W READ_ONLY request st client)
                requests st H) as (events & E & F).
    exists events. split; [exact E|]. split; [exact F|].
    apply (usesOnly_counts client), F.
  - intros tasks schedule F.
    destruct (runSchedule_cached W client schedule tasks st H F)
      as (k & E & F').
    exists k. split; [|exact F']. rewrite E. unfold logged. rewrite H.
    reflexivity.
  - intros authClient. reflexivity.
Qed.

(** Three requests on a server with [firstClient] cached; two calls of
    [initializeClient] interleaved on it; and the call that was suspended
    since before, which stores [secondClient]. *)
Lemma serveAll_keeps_cached_client_witness :
  tasksClient warmServer = Some firstClient /\
  tasksClient
    (serveAll (Stdio.callTool sampleWorld)
       [listTasksOfL; createTaskWithoutTitle; unknownToolRequest]
       warmServer).2
  = Some firstClient /\
  Forall (entersAfter firstClient) [AtEntry; AtEntry] /\
  (exists k,
     (runSchedule sampleWorld [1; 0; 1]%nat ([AtEntry; AtEntry], warmServer)).2
     = mkServerState (Some firstClient)
         (log warmServer ++ repeat EvInitializeClient k)) /\
  tasksClient
    (runSchedule sampleWorld [0%nat]
       ([AtAwait (inr (mkOAuth2Client 7%nat))], warmServer)).2
  = Some secondClient.
Proof.
  assert (F : Forall (entersAfter firstClient) [AtEntry; AtEntry]).
  { repeat constructor; left; reflexivity. }
  split; [reflexivity|].
  destruct (serveAll_keeps_cached_client sampleWorld true
              [listTasksOfL; createTaskWithoutTitle; unknownToolRequest]
              warmServer firstClient eq_refl)
    as ((events & E & _) & _ & I & S).
  split; [rewrite E; reflexivity|]. split; [exact F|]. split.
  - destruct (I [AtEntry; AtEntry] [1; 0; 1]%nat F) as (k & Ek & _).
    exists k. exact Ek.
  - rewrite (S (mkOAuth2Client 7%nat)). reflexivity.
Defined.

Lemma listed_names_read_only :
  map name (Http.listTools true)
  = ["list_task_lists"; "list_tasks"; "get_auth_url"].
Proof. vm_compute. reflexivity. Qed.



Lemma underlyingAction_declared (n : string) (args args' : gmap string JsValue) :
  (forall key, In key (declaredProperties n) -> args !! key = args' !! key) ->
  underlyingAction n args = underlyingAction n args'.
Proof.
  unfold underlyingAction, prop.
  repeat match goal with
         | |- context [String.eqb n ?lit] =>
             destruct (String.eqb_spec n lit) as [->|]
         end;
    intros H; try reflexivity;
    repeat match goal with
           | |- context [args !! ?k] =>
               rewrite (H k) by (vm_compute; tauto)
           end;
    reflexivity.
Qed.

(** X8. A handler reads only the arguments its tool's schema declares: two
    requests for the same tool whose arguments agree on the declared
    properties get the same answer with the same effects, in both servers.
    Arguments outside the schema are ignored. *)
Theorem callTool_reads_declared_properties_only (W : Collaborators)
  (n : string) (args args' : gmap string JsValue) (st : ServerState) :
  (forall key, In key (declaredProperties n) -> args !! key = args' !! key) ->
  Stdio.callTool W (mkRequest n (Some args)) st
    = Stdio.callTool W (mkRequest n (Some args')) st /\
  forall READ_ONLY,
    Http.callTool W READ_ONLY (mkRequest n (Some args)) st
    = Http.callTool W READ_ONLY (mkRequest n (Some args')) st.
Proof.
  intros H.
  assert (E : Stdio.callTool W (mkRequest n (Some args)) st
              = Stdio.callTool W (mkRequest n (Some args')) st).
  { rewrite !callTool_stdio_normal.
    change (argsOf (mkRequest n (Some args))) with args.
    change (argsOf (mkRequest n (Some args'))) with args'.
    cbn [params_name].
    rewrite (underlyingAction_declared n args args' H). reflexivity. }
  split; [exact E|]. intros READ_ONLY.
  rewrite !callTool_http_as_stdio. cbn [params_name]. rewrite E. reflexivity.
Qed.

Lemma callTool_reads_declared_properties_only_witness :
  declaredProperties "list_tasks" = ["taskListId"; "showCompleted"] /\
  Stdio.callTool sampleWorld listTasksOfL_extra warmServer
    = Stdio.callTool sampleWorld listTasksOfL warmServer.
Proof.
  split; [reflexivity|].
  refine (proj1 (callTool_reads_declared_properties_only sampleWorld
                   "list_tasks"
                   {[ "taskListId" := JStr [0x4C]; "verbose" := JBool true ]}
                   {[ "taskListId" := JStr [0x4C] ]} warmServer _)).
  intros key Hk. cbn in Hk.
  destruct Hk as [<- | [<- | []]]; vm_compute; reflexivity.
Defined.

(** ** More on the formatter *)

Lemma Permutation_concat {A : Type} (l l' : list (list A)) :
  Permutation l l' -> Permutation (concat l) (concat l').
Proof.
  induction 1 as [|x l l' _ IH|x y l|l l' l'' _ IH1 _ IH2]; cbn.
  - constructor.
  - apply Permutation_app_head, IH.
  - rewrite !app_assoc. apply Permutation_app_tail, Permutation_app_comm.
  - etransitivity; eassumption.
Qed.

(** X9. [formatForTerminal] only rearranges: its result is a permutation of
    the code units of the input, so it has the same length and the same RTL
    classification.  This holds for the code-unit reversal always, and for
    the reversal by clusters provided the segmenter's clusters, concatenated,
    are the input. *)
Theorem formatForTerminal_permutes
  (segment : jsString -> list jsString) (s : jsString) :
  concat (segment s) = s ->
  Permutation s (Utils.formatForTerminal (TString s)) /\
  length (Utils.formatForTerminal (TString s)) = length s /\
  hasRTL (Utils.formatForTerminal (TString s)) = hasRTL s /\
  Permutation s (UtilsGrapheme.formatForTerminal (Some segment) (TString s)) /\
  length (UtilsGrapheme.formatForTerminal (Some segment) (TString s))
    = length s /\
  hasRTL (UtilsGrapheme.formatForTerminal (Some segment) (TString s))
    = hasRTL s.
Proof.
  intros Hseg.
  assert (P1 : Permutation s (Utils.formatForTerminal (TString s))).
  { unfold Utils.formatForTerminal.
    destruct s as [|u s]; [constructor|]. cbn [isEmpty].
    destruct (hasRTL (u :: s)); [apply Permutation_rev | reflexivity]. }
  assert (P2 : Permutation s
                 (UtilsGrapheme.formatForTerminal (Some segment) (TString s))).
  { unfold UtilsGrapheme.formatForTerminal.
    destruct s as [|u s]; [constructor|]. cbn [isEmpty].
    destruct (hasRTL (u :: s)); [|reflexivity].
    rewrite <- Hseg at 1. apply Permutation_concat, Permutation_rev. }
  assert (R : forall t, Permutation s t -> hasRTL t = hasRTL s).
  { intros t P. unfold hasRTL.
    destruct (existsb isRTL s) eqn:E.
    - apply existsb_exists in E as (u & Hin & Hu).
      apply existsb_exists. exists u. split; [|exact Hu].
      apply (Permutation_in _ P), Hin.
    - destruct (existsb isRTL t) eqn:E'; [|reflexivity].
      apply existsb_exists in E' as (u & Hin & Hu).
      assert (existsb isRTL s = true); [|congruence].
      apply existsb_exists. exists u. split; [|exact Hu].
      apply (Permutation_in _ (Permutation_sym P)), Hin. }
  split; [exact P1|]. split; [symmetry; apply Permutation_length, P1|].
  split; [apply R, P1|]. split; [exact P2|].
  split; [symmetry; apply Permutation_length, P2 | apply R, P2].
Qed.

Lemma formatForTerminal_permutes_witness :
  concat (segmentCodePoints [0x05E9; 0x05DC; 0xD83D; 0xDC4B])
    = [0x05E9; 0x05DC; 0xD83D; 0xDC4B] /\
  Permutation [0x05E9; 0x05DC; 0xD83D; 0xDC4B]
    (UtilsGrapheme.formatForTerminal (Some segmentCodePoints)
       (TString [0x05E9; 0x05DC; 0xD83D; 0xDC4B])).
Proof.
  split; [reflexivity|].
  exact (proj1 (proj2 (proj2 (proj2
    (formatForTerminal_permutes segmentCodePoints
       [0x05E9; 0x05DC; 0xD83D; 0xDC4B] eq_refl))))).
Defined.

Lemma rtlFree_field (fields : gmap string JsValue) (key : string)
  (x : JsValue) :
  rtlFree (JObj fields) = true -> fields !! key = Some x -> rtlFree x = true.
Proof.
  intros H Hx. cbn [rtlFree] in H.
  rewrite <- (insert_delete_id fields key x Hx) in H.
  rewrite map_fold_insert_L in H.
  - apply andb_true_iff in H. apply H.
  - intros j1 j2 z1 z2 y _ _ _.
    rewrite !andb_assoc, (andb_comm (rtlFree z1)). reflexivity.
  - apply lookup_delete_eq.
Qed.

Lemma formatJsonForTerminal_rtlFree (fmt : Text -> jsString)
  (rtlFields : list string) :
  (forall s, hasRTL s = false -> fmt (TString s) = s) ->
  forall data,
    rtlFree data = true ->
    formatJsonForTerminal fmt rtlFields data = dropProto data.
Proof.
  intros Hfmt data.
  induction data as [| |b|n|s|items IH|fields IH] using JsValue_nested_ind;
    intros H;
    try (apply formatJsonForTerminal_scalar; reflexivity).
  - rewrite formatJsonForTerminal_array. cbn [dropProto]. f_equal.
    apply map_ext_in.
    intros x Hx. apply (IH x Hx).
    cbn [rtlFree] in H. rewrite forallb_forall in H. apply H, Hx.
  - rewrite formatJsonForTerminal_fields, dropProto_fields. f_equal.
    apply map_eq. intros key. rewrite !map_lookup_imap.
    destruct (fields !! key) as [x|] eqn:E; [|reflexivity].
    cbn. destruct (String.eqb key protoKey); [reflexivity|]. f_equal.
    pose proof (rtlFree_field fields key x H E) as Hx.
    specialize (IH key x E Hx).
    destruct x as [| |b|n|s|items|nested]; try reflexivity; try exact IH.
    unfold formatEntry. cbn [dropProto].
    destruct (bool_decide (key ∈ rtlFields)); [|reflexivity].
    cbn [rtlFree] in Hx. apply negb_true_iff in Hx.
    rewrite (Hfmt s Hx). reflexivity.
Qed.

(** X10. Data without RTL text passes through [formatJsonForTerminal]
    unchanged: when no string of a value, at any depth and under any key, has
    a code unit of the RTL class, and no object in it owns the key
    [__proto__], the result is the value itself, for every list of field
    names, in both revisions and whatever the segmenter.  With such keys the
    result is the value without them. *)
Theorem formatJsonForTerminal_without_RTL (rtlFields : list string)
  (data : JsValue) :
  rtlFree data = true ->
  (formatJsonForTerminal Utils.formatForTerminal rtlFields data
   = dropProto data /\
   forall segmenter,
     formatJsonForTerminal (UtilsGrapheme.formatForTerminal segmenter)
       rtlFields data = dropProto data) /\
  (protoFree data = true ->
   formatJsonForTerminal Utils.formatForTerminal rtlFields data = data /\
   forall segmenter,
     formatJsonForTerminal (UtilsGrapheme.formatForTerminal segmenter)
       rtlFields data = data).
Proof.
  intros H.
  assert (U : formatJsonForTerminal Utils.formatForTerminal rtlFields data
              = dropProto data).
  { apply formatJsonForTerminal_rtlFree; [|exact H].
    intros s Hs. cbn. rewrite Hs. destruct s; reflexivity. }
  assert (G : forall segmenter,
            formatJsonForTerminal (UtilsGrapheme.formatForTerminal segmenter)
              rtlFields data = dropProto data).
  { intros segmenter. apply formatJsonForTerminal_rtlFree; [|exact H].
    intros s Hs. cbn. rewrite Hs. destruct s; reflexivity. }
  split; [split; [exact U | exact G]|].
  intros P. apply dropProto_protoFree in P.
  split; [|intros segmenter; rewrite G]; congruence.
Qed.

Lemma formatJsonForTerminal_without_RTL_witness :
  rtlFree (JArr [JObj {[ "title" := JStr [0x48; 0x69];
                         "id" := JStr [0x31] ]}; JNull]) = true /\
  protoFree (JArr [JObj {[ "title" := JStr [0x48; 0x69];
                           "id" := JStr [0x31] ]}; JNull]) = true /\
  formatJsonForTerminal Utils.formatForTerminal rtlFields_default
    (JArr [JObj {[ "title" := JStr [0x48; 0x69];
                   "id" := JStr [0x31] ]}; JNull])
  = JArr [JObj {[ "title" := JStr [0x48; 0x69];
                  "id" := JStr [0x31] ]}; JNull].
Proof.
  assert (H : rtlFree (JArr [JObj {[ "title" := JStr [0x48; 0x69];
                                     "id" := JStr [0x31] ]}; JNull]) = true)
    by (vm_compute; reflexivity).
  assert (P : protoFree (JArr [JObj {[ "title" := JStr [0x48; 0x69];
                                       "id" := JStr [0x31] ]}; JNull]) = true)
    by (vm_compute; reflexivity).
  split; [exact H|]. split; [exact P|].
  exact (proj1 (proj2 (formatJsonForTerminal_without_RTL rtlFields_default
                         _ H) P)).
Defined.

(** ** The client wrapper *)

Lemma setIfDefined_lookup (updates body : gmap string JsValue)
  (key k : string) :
  TasksClient.setIfDefined updates key body !! k =
  if decide (k = key)
  then match prop updates key with
       | JUndefined => body !! k
       | value => Some value
       end
  else body !! k.
Proof.
  unfold TasksClient.setIfDefined.
  destruct (decide (k = key)) as [->|Hne];
    destruct (prop updates key);
    rewrite ?lookup_insert_eq, ?lookup_insert_ne by congruence; reflexivity.
Qed.

Lemma updateTask_body_lookup (taskId : JsValue)
  (updates : gmap string JsValue) (k : string) :
  TasksClient.updateTask_body taskId updates !! k =
  if decide (k = "id") then Some taskId
  else if bool_decide (k ∈ ["title"; "notes"; "due"; "status"])
       then match prop updates k with
            | JUndefined => None
            | value => Some value
            end
       else None.
Proof.
  unfold TasksClient.updateTask_body. rewrite !setIfDefined_lookup.
  destruct (decide (k = "status")) as [->|]; [destruct (prop _ _); reflexivity|].
  destruct (decide (k = "due")) as [->|]; [destruct (prop _ _); reflexivity|].
  destruct (decide (k = "notes")) as [->|]; [destruct (prop _ _); reflexivity|].
  destruct (decide (k = "title")) as [->|]; [destruct (prop _ _); reflexivity|].
  destruct (decide (k = "id")) as [->|]; [reflexivity|].
  rewrite lookup_singleton_ne by congruence.
  rewrite bool_decide_eq_false_2; [reflexivity|].
  rewrite !elem_of_cons, elem_of_nil. intuition congruence.
Qed.

(** X11. [updateTask] is a partial update: the body it sends to
    [tasks.patch] holds [id] and, of [title], [notes], [due] and [status],
    exactly those whose value is not [undefined], and nothing else.  Through
    the [update_task] tool, a field the arguments leave out is therefore not
    sent (and so not cleared), while one given as [null] is sent as [null]. *)
Theorem update_task_sends_only_given_fields
  (google : TasksClient.Request -> Thrown + gmap string JsValue)
  (args : gmap string JsValue) :
  exists body : gmap string JsValue,
    clientMethod google
      (updateTask (prop args "taskListId") (prop args "taskId")
         (prop args "title") (prop args "notes") (prop args "status")
         (prop args "due"))
    = match google
              (TasksClient.mkApiRequest TasksClient.tasks_patch
                 {[ "tasklist" := prop args "taskListId";
                    "task" := prop args "taskId";
                    "requestBody" := JObj body ]})
      with
      | inl e => inl e
      | inr data => inr (JObj data)
      end /\
    body !! "id" = Some (prop args "taskId") /\
    body !! "title" = sentValue args "title" /\
    body !! "notes" = sentValue args "notes" /\
    body !! "due" = sentValue args "due" /\
    body !! "status" = sentValue args "status" /\
    dom body ⊆ {[ "id"; "title"; "notes"; "due"; "status" ]}.
Proof.
  eexists. split; [reflexivity|].
  assert (S : forall key,
            key ∈ ["title"; "notes"; "due"; "status"] ->
            prop ({[ "title" := prop args "title";
                     "notes" := prop args "notes";
                     "status" := prop args "status";
                     "due" := prop args "due" ]} : gmap string JsValue) key
            = prop args key).
  { intros key Hk. rewrite !elem_of_cons, elem_of_nil in Hk.
    destruct Hk as [->|[->|[->|[->|[]]]]]; reflexivity. }
  assert (V : forall key,
            match prop args key with
            | JUndefined => None
            | value => Some value
            end = sentValue args key).
  { intros key. unfold prop, sentValue.
    destruct (args !! key) as [[]|]; reflexivity. }
  repeat split.
  - rewrite updateTask_body_lookup. reflexivity.
  - rewrite updateTask_body_lookup. cbn.
    rewrite S by (rewrite !elem_of_cons; tauto). apply V.
  - rewrite updateTask_body_lookup. cbn.
    rewrite S by (rewrite !elem_of_cons; tauto). apply V.
  - rewrite updateTask_body_lookup. cbn.
    rewrite S by (rewrite !elem_of_cons; tauto). apply V.
  - rewrite updateTask_body_lookup. cbn.
    rewrite S by (rewrite !elem_of_cons; tauto). apply V.
  - intros k Hk. apply elem_of_dom in Hk as [v Hv].
    rewrite updateTask_body_lookup in Hv.
    rewrite !elem_of_union, !elem_of_singleton.
    destruct (decide (k = "id")) as [->|]; [tauto|].
    destruct (bool_decide (k ∈ ["title"; "notes"; "due"; "status"])) eqn:B;
      [|discriminate Hv].
    apply bool_decide_eq_true in B.
    rewrite !elem_of_cons, elem_of_nil in B. tauto.
Qed.

Example update_task_title_only :
  TasksClient.updateTask_body (JStr [0x54])
    {[ "title" := JStr [0x41]; "notes" := JUndefined;
       "status" := JUndefined; "due" := JUndefined ]}
  = {[ "id" := JStr [0x54]; "title" := JStr [0x41] ]}.
Proof. vm_compute. reflexivity. Qed.

Lemma orElse_truthy (a b : JsValue) : falsy b = false -> falsy (orElse a b) = false.
Proof. intros H. unfold orElse. destruct (falsy a) eqn:E; assumption. Qed.


(** ** The bearer-token check *)

Lemma matchWord_split (word s rest : jsString) :
  matchWord word s = Some rest ->
  exists scheme, s = scheme ++ rest /\ matchWord word scheme = Some [].
Proof.
  revert s. induction word as [|letter word IH]; intros s H; cbn in H.
  - injection H as <-. exists []. split; reflexivity.
  - destruct s as [|u s]; [discriminate H|].
    destruct (sameLetter letter u) eqn:E; [|discriminate H].
    destruct (IH s H) as (scheme & -> & Hs).
    exists (u :: scheme). split; [reflexivity|]. cbn. rewrite E. exact Hs.
Qed.

Lemma matchWord_app (word scheme rest : jsString) :
  matchWord word scheme = Some [] -> matchWord word (scheme ++ rest) = Some rest.
Proof.
  revert scheme. induction word as [|letter word IH]; intros scheme H; cbn in H.
  - injection H as ->. reflexivity.
  - destruct scheme as [|u scheme]; [discriminate H|].
    cbn. destruct (sameLetter letter u); [|discriminate H]. apply IH, H.
Qed.

Lemma skipWhiteSpace_split (s : jsString) :
  exists spaces,
    s = spaces ++ skipWhiteSpace s /\ forallb isWhiteSpace spaces = true /\
    leadingWhiteSpace (skipWhiteSpace s) = false.
Proof.
  induction s as [|u s (spaces & E & F & L)]; cbn [skipWhiteSpace].
  - exists []. repeat split.
  - destruct (isWhiteSpace u) eqn:W.
    + exists (u :: spaces). cbn [app forallb]. rewrite W, F, <- E.
      repeat split. exact L.
    + exists []. cbn [app forallb leadingWhiteSpace]. rewrite W. repeat split.
Qed.

Lemma skipWhiteSpace_app (spaces token : jsString) :
  forallb isWhiteSpace spaces = true -> leadingWhiteSpace token = false ->
  skipWhiteSpace (spaces ++ token) = token.
Proof.
  intros F L.
  induction spaces as [|u spaces IH];
    cbn [app skipWhiteSpace forallb leadingWhiteSpace] in *.
  - destruct token as [|t token]; [reflexivity|].
    cbn [skipWhiteSpace leadingWhiteSpace] in *. rewrite L. reflexivity.
  - apply andb_true_iff in F as [-> F]. apply IH, F.
Qed.

Lemma stripBearer_shape (authHeader : jsString) :
  stripBearer authHeader = authHeader \/
  exists scheme spaces,
    authHeader = scheme ++ spaces ++ stripBearer authHeader /\
    isBearerWord scheme = true /\ spaces <> [] /\
    forallb isWhiteSpace spaces = true.
Proof.
  unfold stripBearer.
  destruct (matchWord (units "Bearer") authHeader) as [[|u rest]|] eqn:M;
    [left; reflexivity | | left; reflexivity].
  destruct (isWhiteSpace u) eqn:W; [|left; reflexivity].
  right. apply matchWord_split in M as (scheme & -> & Hs).
  destruct (skipWhiteSpace_split rest) as (spaces & E & F & _).
  exists scheme, (u :: spaces). split; [|split; [|split]].
  - cbn [app]. rewrite <- E. reflexivity.
  - unfold isBearerWord. rewrite Hs. reflexivity.
  - discriminate.
  - cbn [forallb]. rewrite W. exact F.
Qed.

Lemma stripBearer_bearer (scheme spaces token : jsString) :
  isBearerWord scheme = true -> spaces <> [] ->
  forallb isWhiteSpace spaces = true -> leadingWhiteSpace token = false ->
  stripBearer (scheme ++ spaces ++ token) = token.
Proof.
  intros Hs Hne F L. unfold stripBearer, isBearerWord in *.
  destruct (matchWord (units "Bearer") scheme) as [[|]|] eqn:M;
    try discriminate Hs.
  rewrite (matchWord_app _ _ _ M).
  destruct spaces as [|u spaces]; [contradiction|].
  cbn [app forallb] in F |- *. apply andb_true_iff in F as [-> F].
  apply skipWhiteSpace_app; assumption.
Qed.

(** X13. The bearer-token check, for a token that is not empty and does not
    begin with white space: a request passes exactly when its
    [Authorization] header is the word [Bearer] in any casing, one or more
    white-space characters, and the token; or is the token alone, when the
    token does not itself read as such a header.  A request without the
    header, or with an empty one, never passes. *)
Theorem authMiddleware_accepts_exactly (MCP_TOKEN : jsString)
  (authHeader : option jsString) :
  MCP_TOKEN <> [] -> leadingWhiteSpace MCP_TOKEN = false ->
  (authMiddleware MCP_TOKEN authHeader = next <->
   exists header,
     authHeader = Some header /\
     ((header = MCP_TOKEN /\ stripBearer MCP_TOKEN = MCP_TOKEN) \/
      exists scheme spaces,
        header = scheme ++ spaces ++ MCP_TOKEN /\
        isBearerWord scheme = true /\ spaces <> [] /\
        forallb isWhiteSpace spaces = true)) /\
  authMiddleware MCP_TOKEN None
    = respond 401 "Unauthorized" "Invalid or missing bearer token" /\
  authMiddleware MCP_TOKEN (Some [])
    = respond 401 "Unauthorized" "Invalid or missing bearer token" /\
  authMiddleware MCP_TOKEN (Some (units "Bearer " ++ MCP_TOKEN)) = next /\
  authMiddleware MCP_TOKEN (Some (units "bearer" ++ [0x09; 0x20] ++ MCP_TOKEN))
    = next.
Proof.
  intros Hne L.
  assert (A : forall header,
            stripBearer header = MCP_TOKEN ->
            authMiddleware MCP_TOKEN (Some header) = next).
  { intros header E. unfold authMiddleware. cbn. rewrite E.
    rewrite bool_decide_eq_true_2 by reflexivity.
    destruct MCP_TOKEN; [contradiction | reflexivity]. }
  split; [split|].
  - unfold authMiddleware. destruct authHeader as [header|]; [|discriminate].
    cbn. intros H. exists header. split; [reflexivity|].
    destruct (isEmpty (stripBearer header)); [discriminate H|].
    destruct (bool_decide (stripBearer header = MCP_TOKEN)) eqn:B;
      [|discriminate H].
    apply bool_decide_eq_true in B.
    destruct (stripBearer_shape header) as [E | (scheme & spaces & E & R)].
    + left. rewrite E in B. subst header. split; [reflexivity | exact E].
    + right. exists scheme, spaces. rewrite B in E. split; [exact E | exact R].
  - intros (header & -> & [[-> E] | (scheme & spaces & -> & Hs & Hn & F)]).
    + apply A, E.
    + apply A, stripBearer_bearer; assumption.
  - split; [reflexivity|]. split; [reflexivity|]. split.
    + apply A. apply (stripBearer_bearer (units "Bearer") [0x20] MCP_TOKEN);
        [reflexivity | discriminate | reflexivity | exact L].
    + apply A.
      apply (stripBearer_bearer (units "bearer") [0x09; 0x20] MCP_TOKEN);
        [reflexivity | discriminate | reflexivity | exact L].
Qed.

Lemma authMiddleware_accepts_exactly_witness :
  sampleToken <> [] /\ leadingWhiteSpace sampleToken = false /\
  authMiddleware sampleToken (Some (units "Bearer " ++ sampleToken)) = next /\
  authMiddleware sampleToken (Some (units "Bearer " ++ units "guess"))
    = respond 401 "Unauthorized" "Invalid or missing bearer token".
Proof.
  assert (Hne : sampleToken <> []) by discriminate.
  assert (L : leadingWhiteSpace sampleToken = false) by reflexivity.
  split; [exact Hne|]. split; [exact L|].
  destruct (authMiddleware_accepts_exactly sampleToken None Hne L)
    as (_ & _ & _ & B & _).
  split; [exact B | vm_compute; reflexivity].
Defined.

(** ** The CORS origin check *)

Lemma startsWith_app (p s q : jsString) :
  startsWith (p ++ s) (p ++ q) = startsWith s q.
Proof.
  induction p as [|a p IH]; [reflexivity|].
  cbn [app startsWith]. rewrite Z.eqb_refl. exact IH.
Qed.

Lemma startsWith_prefix (s p : jsString) :
  startsWith s p = true <-> exists rest, s = p ++ rest.
Proof.
  revert s. induction p as [|a p IH]; intros s.
  - split; [intros _; exists s; reflexivity | destruct s; reflexivity].
  - destruct s as [|b s]; cbn [startsWith].
    + split; [discriminate | intros (rest & E); discriminate E].
    + rewrite andb_true_iff, Z.eqb_eq, IH. split.
      * intros (-> & rest & ->). exists rest. reflexivity.
      * intros (rest & E). injection E as -> ->. split; [reflexivity|].
        exists rest. reflexivity.
Qed.

Lemma corsOrigin_allowed_iff (domain o : jsString) :
  domain <> [] -> o <> [] ->
  corsOrigin (Some domain) (Some o) = corsAllowed <->
  (o = units "https://" ++ domain \/
   (exists path, o = (units "https://" ++ domain ++ units "/") ++ path) \/
   o = units "http://" ++ domain \/
   (exists path, o = (units "http://" ++ domain ++ units "/") ++ path)).
Proof.
  intros Hd Ho. unfold corsOrigin.
  destruct o as [|c o]; [contradiction|].
  destruct domain as [|d domain]; [contradiction|].
  cbn [isEmpty existsb].
  rewrite <- !(startsWith_prefix (c :: o)), <- !app_assoc.
  assert (X : forall b : bool,
            (if b then corsAllowed else corsError "Not allowed by CORS")
            = corsAllowed <-> b = true).
  { intros []; split; first [reflexivity | discriminate]. }
  rewrite X, !orb_true_iff, !bool_decide_eq_true.
  intuition discriminate.
Qed.

(** X14. The origin check when [NGROK_DOMAIN] is set: an origin is allowed
    exactly when it is [https://] or [http://] followed by the domain, alone
    or continued by [/] and a path.  So an origin that continues the domain
    by anything but [/] (a longer host name such as the domain with
    [.evil.example] appended) is refused.  A request without an origin is
    always allowed, and so is every origin when the domain is not set. *)
Theorem corsOrigin_allows_exactly (domain o : jsString) :
  domain <> [] -> o <> [] ->
  (corsOrigin (Some domain) (Some o) = corsAllowed <->
   exists scheme,
     (scheme = units "https://" \/ scheme = units "http://") /\
     (o = scheme ++ domain \/
      exists path, o = scheme ++ domain ++ units "/" ++ path)) /\
  (forall c rest,
     c <> 0x2F ->
     corsOrigin (Some domain) (Some (units "https://" ++ domain ++ c :: rest))
     = corsError "Not allowed by CORS") /\
  (forall NGROK_DOMAIN, corsOrigin NGROK_DOMAIN None = corsAllowed) /\
  (forall origin,
     corsOrigin None origin = corsAllowed /\
     corsOrigin (Some []) origin = corsAllowed).
Proof.
  intros Hd Ho. split; [|split; [|split]].
  - rewrite (corsOrigin_allowed_iff domain o Hd Ho). split.
    + intros [E | [(path & E) | [E | (path & E)]]].
      * exists (units "https://"). split; [left; reflexivity | left; exact E].
      * exists (units "https://"). split; [left; reflexivity|]. right.
        exists path. rewrite E, <- !app_assoc. reflexivity.
      * exists (units "http://"). split; [right; reflexivity | left; exact E].
      * exists (units "http://"). split; [right; reflexivity|]. right.
        exists path. rewrite E, <- !app_assoc. reflexivity.
    + intros (scheme & [-> | ->] & [E | (path & E)]).
      * left. exact E.
      * right. left. exists path. rewrite E, <- !app_assoc. reflexivity.
      * right. right. left. exact E.
      * right. right. right. exists path. rewrite E, <- !app_assoc.
        reflexivity.
  - intros c rest Hc.
    destruct (corsOrigin (Some domain)
                (Some (units "https://" ++ domain ++ c :: rest))) eqn:E.
    + exfalso. apply corsOrigin_allowed_iff in E; [|exact Hd|discriminate].
      destruct E as [E | [(path & E) | [E | (path & E)]]].
      * apply app_inv_head in E. rewrite <- (app_nil_r domain) in E at 2.
        apply app_inv_head in E. discriminate E.
      * rewrite <- !app_assoc in E. apply app_inv_head in E.
        apply app_inv_head in E. injection E as E _. contradiction.
      * vm_compute in E. discriminate E.
      * vm_compute in E. discriminate E.
    + unfold corsOrigin in E. cbn [isEmpty] in E.
      destruct domain; [contradiction|]. cbn [isEmpty] in E.
      destruct (existsb _ _) in E; [discriminate E|].
      injection E as <-. reflexivity.
  - reflexivity.
  - intros origin. split; destruct origin as [[|]|]; reflexivity.
Qed.

Lemma corsOrigin_allows_exactly_witness :
  units "tasks.example" <> [] /\
  corsOrigin (Some (units "tasks.example"))
    (Some (units "https://tasks.example/mcp")) = corsAllowed /\
  corsOrigin (Some (units "tasks.example"))
    (Some (units "https://" ++ units "tasks.example"
             ++ 0x2E :: units "evil.example"))
  = corsError "Not allowed by CORS".
Proof.
  assert (Hd : units "tasks.example" <> []) by discriminate.
  assert (Ho : units "https://tasks.example/mcp" <> []) by discriminate.
  destruct (corsOrigin_allows_exactly (units "tasks.example")
              (units "https://tasks.example/mcp") Hd Ho) as (_ & N & _).
  split; [exact Hd|]. split; [vm_compute; reflexivity|].
  apply N. discriminate.
Defined.

(** ** The configuration of the HTTP server *)



(** ** The token file *)

Lemma append_ne (s t : string) : t <> "" -> s +:+ t <> s.
Proof.
  intros Ht. induction s as [|a s IH].
  - exact Ht.
  - change (String a s +:+ t) with (String a (s +:+ t)).
    intros E. injection E as E. exact (IH E).
Qed.

Section TokenFile.

Variable tokenPath : string.
Variable JSON_parse : string -> string + JsValue.
Variable JSON_stringify : JsValue -> string.

Lemma tmp_is_another_file : tokenPath +:+ ".tmp" <> tokenPath.
Proof. apply append_ne. discriminate. Qed.

Lemma saveToken_atomic_files (tokens : JsValue) (st : Auth.State) :
  Auth.files (Auth.saveToken_atomic tokenPath JSON_stringify tokens st)
  = <[tokenPath := JSON_stringify tokens]>
      (delete (tokenPath +:+ ".tmp") (Auth.files st)).
Proof.
  unfold Auth.saveToken_atomic. cbn [Auth.files].
  rewrite lookup_insert_eq, delete_insert_eq. reflexivity.
Qed.

Lemma loadToken_after_write (tokens : JsValue) (st : Auth.State)
  (c : JsValue) (fs : gmap string string) :
  JSON_parse (JSON_stringify tokens) = inr tokens ->
  Auth.loadToken tokenPath JSON_parse
    (Auth.mkState c (<[tokenPath := JSON_stringify tokens]> fs))
  = inr tokens.
Proof.
  intros H. unfold Auth.loadToken. cbn [Auth.files].
  rewrite lookup_insert_eq, H. reflexivity.
Qed.

End TokenFile.

(** X16. Authenticating and then asking for the client is a round trip: when
    the code is exchanged for [tokens] and [tokens] survive
    [JSON.stringify] and [JSON.parse], then after [authenticate] the token
    file parses to [tokens], [hasValidToken] is true and [getAuthClient]
    returns the client with exactly these credentials; files other than the
    token file are not touched.  When the exchange fails nothing is written.
    Without a token file, or with one that does not parse, [getAuthClient]
    throws the same fixed error and [hasValidToken] is false. *)
Theorem authenticate_then_getAuthClient
  (tokenPath : string) (JSON_parse : string -> string + JsValue)
  (JSON_stringify : JsValue -> string) (getToken : string -> Thrown + JsValue)
  (code : string) (tokens : JsValue) (st : Auth.State) :
  getToken code = inr tokens ->
  JSON_parse (JSON_stringify tokens) = inr tokens ->
  let st1 :=
    (Auth.authenticate getToken (Auth.saveToken tokenPath JSON_stringify)
       code st).2 in
  (Auth.authenticate getToken (Auth.saveToken tokenPath JSON_stringify)
     code st).1 = inr tt /\
  Auth.getAuthClient tokenPath JSON_parse st1 = (inr tokens, st1) /\
  Auth.hasValidToken tokenPath JSON_parse st1 = true /\
  Auth.credentials st1 = tokens /\
  (forall path, path <> tokenPath ->
                Auth.files st1 !! path = Auth.files st !! path) /\
  (forall code' e,
     getToken code' = inl e ->
     Auth.authenticate getToken (Auth.saveToken tokenPath JSON_stringify)
       code' st = (inl e, st)) /\
  (forall st0,
     Auth.files st0 !! tokenPath = None ->
     Auth.getAuthClient tokenPath JSON_parse st0
       = (inl (ThrownError Auth.noValidToken), st0) /\
     Auth.hasValidToken tokenPath JSON_parse st0 = false) /\
  (forall st0 text syntaxError,
     Auth.files st0 !! tokenPath = Some text ->
     JSON_parse text = inl syntaxError ->
     Auth.getAuthClient tokenPath JSON_parse st0
       = (inl (ThrownError Auth.noValidToken), st0) /\
     Auth.hasValidToken tokenPath JSON_parse st0 = false).
Proof.
  intros Hget Hjson st1.
  assert (E1 : st1 = Auth.mkState tokens
                 (<[tokenPath := JSON_stringify tokens]> (Auth.files st))).
  { unfold st1, Auth.authenticate. rewrite Hget. reflexivity. }
  assert (L : Auth.loadToken tokenPath JSON_parse st1 = inr tokens).
  { rewrite E1. apply (loadToken_after_write tokenPath); [exact st | exact Hjson]. }
  split; [unfold Auth.authenticate; rewrite Hget; reflexivity|].
  split; [unfold Auth.getAuthClient; rewrite L, E1; reflexivity|].
  split; [unfold Auth.hasValidToken; rewrite L; reflexivity|].
  split; [rewrite E1; reflexivity|].
  split; [intros path Hp; rewrite E1; cbn [Auth.files];
          apply lookup_insert_ne; congruence|].
  split; [intros code' e He; unfold Auth.authenticate; rewrite He;
          reflexivity|].
  split.
  - intros st0 H0. unfold Auth.getAuthClient, Auth.hasValidToken, Auth.loadToken.
    rewrite H0. split; reflexivity.
  - intros st0 text syntaxError H0 Hs.
    unfold Auth.getAuthClient, Auth.hasValidToken, Auth.loadToken.
    rewrite H0, Hs. split; reflexivity.
Qed.

Lemma authenticate_then_getAuthClient_witness :
  sampleGetToken "4/0Ab" = inr (JObj sampleCredentials) /\
  Auth.getAuthClient "token.json" (sampleParse (JObj sampleCredentials)) noFiles
    = (inl (ThrownError Auth.noValidToken), noFiles) /\
  Auth.hasValidToken "token.json" (sampleParse (JObj sampleCredentials))
    (Auth.authenticate sampleGetToken
       (Auth.saveToken "token.json" sampleStringify) "4/0Ab" noFiles).2
  = true.
Proof.
  split; [reflexivity|]. split; [reflexivity|].
  exact (proj1 (proj2 (proj2
    (authenticate_then_getAuthClient "token.json"
       (sampleParse (JObj sampleCredentials)) sampleStringify sampleGetToken
       "4/0Ab" (JObj sampleCredentials) noFiles eq_refl eq_refl)))).
Defined.

(** X17. A refresh does not lose what it does not renew.  The listener for
    refreshed tokens saves the old credentials overridden by the new ones:
    every key of the new tokens has its new value, every other key keeps the
    old one, so a stored [refresh_token] survives a refresh that brings
    none.  The token file then parses to that merged object (when it
    survives [JSON.stringify] and [JSON.parse]), written through
    [<path>.tmp], which is gone afterwards; no other file is touched. *)
Theorem onTokens_keeps_other_credentials
  (tokenPath : string) (JSON_parse : string -> string + JsValue)
  (JSON_stringify : JsValue -> string)
  (current tokens : gmap string JsValue) (st : Auth.State) :
  Auth.credentials st = JObj current ->
  JSON_parse (JSON_stringify (JObj (tokens ∪ current)))
    = inr (JObj (tokens ∪ current)) ->
  let st1 := Auth.onTokens tokenPath JSON_stringify tokens st in
  Auth.loadToken tokenPath JSON_parse st1 = inr (JObj (tokens ∪ current)) /\
  (forall key,
     (tokens ∪ current) !! key
     = match tokens !! key with
       | Some value => Some value
       | None => current !! key
       end) /\
  (tokens !! "refresh_token" = None ->
   (tokens ∪ current) !! "refresh_token" = current !! "refresh_token") /\
  Auth.files st1 !! (tokenPath +:+ ".tmp") = None /\
  (forall path,
     path <> tokenPath -> path <> tokenPath +:+ ".tmp" ->
     Auth.files st1 !! path = Auth.files st !! path) /\
  Auth.credentials st1 = Auth.credentials st.
Proof.
  intros Hc Hjson st1.
  assert (F : Auth.files st1
              = <[tokenPath := JSON_stringify (JObj (tokens ∪ current))]>
                  (delete (tokenPath +:+ ".tmp") (Auth.files st))).
  { unfold st1, Auth.onTokens. rewrite saveToken_atomic_files.
    unfold Auth.mergeTokens. rewrite Hc. reflexivity. }
  assert (U : forall key,
            (tokens ∪ current) !! key
            = match tokens !! key with
              | Some value => Some value
              | None => current !! key
              end).
  { intros key. rewrite lookup_union.
    destruct (tokens !! key), (current !! key); reflexivity. }
  split.
  { unfold Auth.loadToken. rewrite F, lookup_insert_eq, Hjson. reflexivity. }
  split; [exact U|].
  split; [intros H; rewrite U, H; reflexivity|].
  split.
  { rewrite F, lookup_insert_ne by (apply not_eq_sym, tmp_is_another_file).
    apply lookup_delete_eq. }
  split; [|reflexivity].
  intros path H1 H2. rewrite F, lookup_insert_ne by congruence.
  apply lookup_delete_ne. congruence.
Qed.

Lemma onTokens_keeps_other_credentials_witness :
  sampleRefresh !! "refresh_token" = None /\
  Auth.loadToken "token.json"
    (sampleParse (JObj (sampleRefresh ∪ sampleCredentials)))
    (Auth.onTokens "token.json" sampleStringify sampleRefresh
       (Auth.mkState (JObj sampleCredentials) ∅))
  = inr (JObj (sampleRefresh ∪ sampleCredentials)) /\
  (sampleRefresh ∪ sampleCredentials) !! "refresh_token" = Some (JStr [0x72]) /\
  (sampleRefresh ∪ sampleCredentials) !! "access_token" = Some (JStr [0x62]).
Proof.
  split; [reflexivity|].
  destruct (onTokens_keeps_other_credentials "token.json"
              (sampleParse (JObj (sampleRefresh ∪ sampleCredentials)))
              sampleStringify sampleCredentials sampleRefresh
              (Auth.mkState (JObj sampleCredentials) ∅) eq_refl eq_refl)
    as (L & _).
  split; [exact L|]. split; vm_compute; reflexivity.
Defined.
